(** * Competitor dashboard (app.py): cleaning, filtering and metrics

    A shallow embedding of the data pipeline of [app.py]: the review-count
    parser [clean_reviews], the rating normalisation, the derived columns,
    the row filter and the three key figures shown above the chart.

    Python values are modelled by the inductive type [pyval]; a [str] is the
    list of its code points; a Python [float] is an IEEE 754 binary64 number,
    taken from the standard library's [SpecFloat] with [prec = 53] and
    [emax = 1024]. *)

From Stdlib Require Import ZArith NArith List Bool Lia.
From Stdlib Require Import Strings.Ascii Strings.String.
From Stdlib Require Import Floats.SpecFloat.
Import ListNotations.

Local Open Scope Z_scope.

(** ** Binary64 numbers *)

Module F64.

Definition prec : Z := 53.
Definition emax : Z := 1024.

Definition float : Type := spec_float.

Definition nan : float := S754_nan.
Definition pinf : float := S754_infinity false.
Definition zero : float := S754_zero false.

Definition mul : float -> float -> float := SFmul prec emax.
Definition add : float -> float -> float := SFadd prec emax.
Definition div : float -> float -> float := SFdiv prec emax.
Definition sqrt : float -> float := SFsqrt prec emax.
Definition leb : float -> float -> bool := SFleb.
Definition ltb : float -> float -> bool := SFltb.

Definition is_nan (x : float) : bool :=
  match x with S754_nan => true | _ => false end.

Definition is_finite (x : float) : bool :=
  match x with S754_zero _ | S754_finite _ _ _ => true | _ => false end.

(** The integer [n] as a float, rounded to nearest even (exact when
    [|n| <= 2^53]). *)
Definition of_Z (n : Z) : float := binary_normalize prec emax n 0 false.

(** The quotient [n / d] of two integers, rounded once to nearest even.
    [SFdiv] puts no bound on the mantissas of its operands, so the two
    integers are handed over exactly. *)
Definition of_ratio (n : Z) (d : positive) : float :=
  match n with
  | Z0 => S754_zero false
  | Zpos p => div (S754_finite false p 0) (S754_finite false d 0)
  | Zneg p => div (S754_finite true p 0) (S754_finite false d 0)
  end.

(** Truncation towards zero of a finite float. *)
Definition trunc (x : float) : Z :=
  match x with
  | S754_finite s m e => cond_Zopp s (Z.shiftl (Zpos m) e)
  | _ => 0
  end.

(** The sign bit of a float; NaN carries none. *)
Definition sign_bit (x : float) : bool :=
  match x with
  | S754_zero s | S754_infinity s | S754_finite s _ _ => s
  | S754_nan => false
  end.

(** The floats of the format.  [spec_float] also has triples that no
    binary64 number is written as (a mantissa of more than 53 bits, or one
    that is not held at the least exponent it fits); a Python or numpy float
    is never one of them. *)
Definition valid (x : float) : bool := valid_binary prec emax x.

(** A mantissa and an exponent in canonical form: the exponent is the one
    the format gives to a number of that magnitude, the least one for
    zero. *)
Definition canonical_pair (m e : Z) : Prop :=
  (m = 0 /\ e = emin prec emax) \/
  (0 < m /\ fexp prec emax (Zdigits2 m + e) = e).

End F64.

(** ** Python strings *)

(** A [str] is a sequence of Unicode code points. *)
Definition str : Type := list N.

(** An ASCII literal as a [str]. *)
Definition lit (s : string) : str :=
  map N_of_ascii (list_ascii_of_string s).

Fixpoint str_eqb (a b : str) : bool :=
  match a, b with
  | [], [] => true
  | x :: a', y :: b' => N.eqb x y && str_eqb a' b'
  | _, _ => false
  end.

(** [s in (t1, t2, ...)] for a tuple of strings. *)
Definition str_in (s : str) (l : list str) : bool := existsb (str_eqb s) l.

(** [c in s] for a single character [c]. *)
Definition contains (c : N) (s : str) : bool := existsb (N.eqb c) s.

Local Open Scope N_scope.

(** [str.isspace] on one code point: the white space of [str.strip()]. *)
Definition isspace (c : N) : bool :=
  ((9 <=? c) && (c <=? 13)) || ((28 <=? c) && (c <=? 32))
  || (c =? 0x85) || (c =? 0xA0) || (c =? 0x1680)
  || ((0x2000 <=? c) && (c <=? 0x200A))
  || (c =? 0x2028) || (c =? 0x2029) || (c =? 0x202F) || (c =? 0x205F)
  || (c =? 0x3000).

(** The white space [float()] skips at both ends: the C white space of
    ASCII, and the Unicode white space beyond ASCII (the separators
    U+001C..U+001F are left as they are). *)
Definition float_space (c : N) : bool :=
  ((9 <=? c) && (c <=? 13)) || (c =? 32) || ((128 <=? c) && isspace c).

(** Case mapping.  Only the ASCII letters are mapped; every other code point
    is left as it is, which is what Unicode does for white space, digits,
    punctuation and the CJK ideographs of the data set. *)
Definition upper_char (c : N) : N :=
  if (97 <=? c) && (c <=? 122) then c - 32 else c.

Definition lower_char (c : N) : N :=
  if (65 <=? c) && (c <=? 90) then c + 32 else c.

Definition upper (s : str) : str := map upper_char s.
Definition lower (s : str) : str := map lower_char s.

Fixpoint lstrip (sp : N -> bool) (s : str) : str :=
  match s with
  | c :: s' => if sp c then lstrip sp s' else s
  | [] => []
  end.

Definition rstrip (sp : N -> bool) (s : str) : str :=
  rev (lstrip sp (rev s)).

(** [s.strip()] *)
Definition strip (s : str) : str := rstrip isspace (lstrip isspace s).

(** [s.replace(c, '')] for a single character [c]. *)
Definition remove_char (c : N) (s : str) : str :=
  filter (fun x => negb (x =? c)) s.

Definition is_digit (c : N) : bool := (48 <=? c) && (c <=? 57).

Local Close Scope N_scope.

(** ** The built-in [float(s)] on a string

    [float] skips white space at both ends, allows single underscores between
    digits, matches letters without regard to case and rounds the decimal
    number it reads to the nearest binary64.  It fails ([None], a
    [ValueError] in Python) on anything else.  Decimal digits outside ASCII
    are not modelled: they make the parse fail here. *)

Definition char (a : ascii) : N := N_of_ascii a.

(** The check on underscores: one is allowed only after a digit and only
    before a digit; they are dropped from the text that is parsed. *)
Fixpoint drop_underscores (prev : N) (s : str) : option str :=
  match s with
  | [] => if N.eqb prev (char "_") then None else Some []
  | c :: s' =>
      if N.eqb c (char "_") then
        if is_digit prev then drop_underscores c s' else None
      else if N.eqb prev (char "_") && negb (is_digit c) then None
      else option_map (cons c) (drop_underscores c s')
  end.

(** The longest prefix of digits of [s], and what follows it. *)
Fixpoint span_digits (s : str) : str * str :=
  match s with
  | c :: s' =>
      if is_digit c then let (d, r) := span_digits s' in (c :: d, r)
      else ([], s)
  | [] => ([], [])
  end.

(** The number written by a string of digits. *)
Definition digits_value (d : str) : Z :=
  fold_left (fun acc c => 10 * acc + Z.of_N (c - 48)) d 0.

(** An optional sign: [true] for a minus. *)
Definition read_sign (s : str) : bool * str :=
  match s with
  | c :: s' =>
      if N.eqb c (char "-") then (true, s')
      else if N.eqb c (char "+") then (false, s')
      else (false, s)
  | [] => (false, [])
  end.

(** The exponent part: nothing, or [e], an optional sign and digits. *)
Definition read_exponent (s : str) : option Z :=
  match s with
  | [] => Some 0
  | c :: s' =>
      if N.eqb c (char "e") then
        let (neg, s'') := read_sign s' in
        match span_digits s'' with
        | (c1 :: d, []) => Some (cond_Zopp neg (digits_value (c1 :: d)))
        | _ => None
        end
      else None
  end.

(** A decimal numeral without sign, as a mantissa and a power of ten. *)
Definition read_decimal (s : str) : option (Z * Z) :=
  let (ip, r) := span_digits s in
  let (fp, r') :=
    match r with
    | c :: r1 => if N.eqb c (char ".") then span_digits r1 else ([], r)
    | [] => ([], [])
    end in
  match ip ++ fp with
  | [] => None
  | c1 :: ds =>
      option_map (fun e => (digits_value (c1 :: ds), e - Z.of_nat (List.length fp)))
                 (read_exponent r')
  end.

(** [m * 10^e], correctly rounded, for [0 <= m]. *)
Definition decimal_to_float (m e : Z) : F64.float :=
  match e with
  | Zneg p => F64.of_ratio m (Pos.pow 10 p)
  | _ => F64.of_ratio (m * 10 ^ e) 1
  end.

Definition apply_sign (neg : bool) (x : F64.float) : F64.float :=
  if neg then SFopp x else x.

(** The text after white space, underscores and case are dealt with. *)
Definition float_of_token (s : str) : option F64.float :=
  let (neg, body) := read_sign s in
  if str_eqb body (lit "inf") || str_eqb body (lit "infinity") then
    Some (apply_sign neg F64.pinf)
  else if str_eqb body (lit "nan") then Some F64.nan
  else
    option_map (fun me => apply_sign neg (decimal_to_float (fst me) (snd me)))
               (read_decimal body).

Definition py_float (s : str) : option F64.float :=
  match drop_underscores 0%N (rstrip float_space (lstrip float_space (lower s))) with
  | Some t => float_of_token t
  | None => None
  end.

(** ** Python values and the cells of the spreadsheet *)

(** The values a cell of the spreadsheet can hold once pandas has read it,
    and the numpy scalars, which carry a dtype. *)
Inductive pyval : Type :=
| PyStr (s : str)
| PyInt (n : Z)
| PyFloat (x : F64.float)
| PyBool (b : bool)
| PyNone
| NpInt64 (n : Z)
| NpFloat64 (x : F64.float).

(** How a computation ends: with a value, with an exception, or with a value
    that numpy leaves to the platform (the conversion to [int64] of a finite
    float outside the range of [int64]). *)
Inductive outcome (A : Type) : Type :=
| Ok (a : A)
| Raises
| Undefined.

Arguments Ok {A} a.
Arguments Raises {A}.
Arguments Undefined {A}.

Definition bind {A B : Type} (m : outcome A) (k : A -> outcome B) : outcome B :=
  match m with
  | Ok a => k a
  | Raises => Raises
  | Undefined => Undefined
  end.

Notation "x <- m ;; k" := (bind m (fun x => k))
  (at level 61, m at next level, right associativity).

(** [pd.api.types.is_numeric_dtype] looks for a dtype: an object that has
    one, as a numpy scalar has, is numeric when its dtype is; a plain Python
    scalar has none and cannot be read as the name of one, and the answer is
    [False].  [clean_reviews] asks this of values that are not strings. *)
Definition is_numeric_dtype (v : pyval) : bool :=
  match v with
  | NpInt64 _ | NpFloat64 _ => true
  | _ => false
  end.

(** U+65E0, U+8BC4, U+8BBA, U+5206, U+7B49, U+7EA7: the characters
    of the place holders 无评论, 无, 无评分 and 无等级. *)
Definition wu : N := 0x65E0.
Definition ping : N := 0x8BC4.
Definition lun : N := 0x8BBA.
Definition fen : N := 0x5206.
Definition deng : N := 0x7B49.
Definition ji : N := 0x7EA7.

(** The tuple [('0', '无评论', '无', '')] of [clean_reviews]. *)
Definition no_reviews : list str :=
  [lit "0"; [wu; ping; lun]; [wu]; []].

(** [clean_reviews], the function applied to every cell of the column
    评论数. *)
Definition clean_reviews (review_str : pyval) : pyval :=
  match review_str with
  | PyStr s =>
      let review_str := strip s in
      if contains (char "K") review_str || contains (char "k") review_str then
        match py_float (remove_char (char "K") (upper review_str)) with
        | Some x => PyFloat (F64.mul x (F64.of_Z 1000))
        | None => PyInt 0
        end
      else if str_in (lower review_str) no_reviews then PyInt 0
      else
        match py_float (remove_char (char ",") review_str) with
        | Some x => PyFloat x
        | None => PyInt 0
        end
  | _ => if is_numeric_dtype review_str then review_str else PyInt 0
  end.

Definition int64_min : Z := - 2 ^ 63.
Definition int64_max : Z := 2 ^ 63 - 1.

Definition in_int64 (n : Z) : bool := (int64_min <=? n) && (n <=? int64_max).

(** The conversion of a float to [int64] by [astype(int)]: pandas raises on
    a value that is not finite and truncates the others towards zero. *)
Definition float_to_int64 (x : F64.float) : outcome Z :=
  if F64.is_finite x then
    if in_int64 (F64.trunc x) then Ok (F64.trunc x) else Undefined
  else Raises.

(** [astype(int)] on one cell of the column [clean_reviews] has produced.
    The column is converted as a whole: it raises when one cell does. *)
Definition astype_int (v : pyval) : outcome Z :=
  match v with
  | PyInt n => if in_int64 n then Ok n else Raises
  | NpInt64 n => Ok n
  | PyFloat x | NpFloat64 x => float_to_int64 x
  | PyBool b => Ok (if b then 1 else 0)
  | PyStr _ | PyNone => Raises
  end.

(** The review-count parser: line 56 of app.py on one cell. *)
Definition parse_review_count (v : pyval) : outcome Z :=
  astype_int (clean_reviews v).

(** *** The parser as section 4.1 of the specification words it *)

Definition ends_with_K (s : str) : bool :=
  match rev s with
  | c :: _ => N.eqb c (char "K") || N.eqb c (char "k")
  | [] => false
  end.

(** Truncation to an integer; the specification does not say what the
    truncation of an infinity or of a NaN is. *)
Definition spec_truncate (x : F64.float) : option Z :=
  if F64.is_finite x then Some (F64.trunc x) else None.

Definition spec_parse_review_count (s : str) : option Z :=
  let t := strip s in
  if ends_with_K t then
    match py_float (removelast t) with
    | Some x => spec_truncate (F64.mul x (F64.of_Z 1000))
    | None => Some 0
    end
  else if str_in (lower t) no_reviews then Some 0
  else
    match py_float (remove_char (char ",") t) with
    | Some x => spec_truncate x
    | None => Some 0
    end.

(** ** The data set *)

(** One row of the spreadsheet: the columns 标题, 等级 and 评论数. *)
Record ProductRecord : Type := {
  title : pyval;
  rating_raw : pyval;
  review_count_raw : pyval
}.

(** One row of the cleaned data frame: the row it comes from and the columns
    评论数_数值, 等级_数值, 评论数_Log10 and 气泡大小. *)
Record CleanedRecord : Type := {
  source : ProductRecord;
  review_count : Z;
  rating : F64.float;
  review_count_log10 : F64.float;
  bubble_size : F64.float
}.

(** [astype(int)] on the whole column: pandas first looks for a cell that is
    not finite and raises if there is one; then numpy converts the cells. *)
Fixpoint astype_int_column (col : list pyval) : outcome (list Z) :=
  match col with
  | [] => Ok []
  | v :: col' =>
      match astype_int v, astype_int_column col' with
      | Raises, _ | _, Raises => Raises
      | Undefined, _ | _, Undefined => Undefined
      | Ok n, Ok l => Ok (n :: l)
      end
  end.

(** The list ['无评分', '无', 'None', '无等级'] replaced by NaN in the column
    等级. *)
Definition no_rating : list str :=
  [[wu; ping; fen]; [wu]; lit "None"; [wu; deng; ji]].

(** [Series.replace(no_rating, np.nan)] on one cell. *)
Definition replace_no_rating (v : pyval) : pyval :=
  match v with
  | PyStr s => if str_in s no_rating then PyFloat F64.nan else v
  | _ => v
  end.

(** Addition of two [int64]: it wraps around. *)
Definition wrap64 (n : Z) : Z := (n - int64_min) mod 2 ^ 64 + int64_min.

(** The sum of a column of floats, from the first cell on, and its mean.
    (numpy adds a column of eight cells or more pairwise, which can change
    the last bits: on such a column [mean] is the mean up to that
    rounding.) *)
Definition sum_floats (l : list F64.float) : F64.float :=
  match l with
  | [] => F64.zero
  | x :: l' => fold_left F64.add l' x
  end.

Definition mean (l : list F64.float) : F64.float :=
  F64.div (sum_floats l) (F64.of_Z (Z.of_nat (List.length l))).

(** The largest cell of a column of integers that is not empty. *)
Definition max_int (l : list Z) : Z :=
  match l with
  | [] => 0
  | x :: l' => fold_left Z.max l' x
  end.

Section Pipeline.

(** [np.log10] on an [int64]: the logarithm of the integer as a float.  The
    value comes from the C library and is kept abstract; the theorems that
    need it assume of it what the C standard says of the sign. *)
Variable np_log10 : Z -> F64.float.

(** The routine by which [pd.to_numeric] reads a string: [None] when the
    string is not a number. *)
Variable to_double : str -> option F64.float.

(** [pd.to_numeric(_, errors='coerce')] on one cell. *)
Definition to_numeric_coerce (v : pyval) : F64.float :=
  match v with
  | PyStr s => match to_double s with Some x => x | None => F64.nan end
  | PyInt n | NpInt64 n => F64.of_Z n
  | PyFloat x | NpFloat64 x => x
  | PyBool b => F64.of_Z (if b then 1 else 0)
  | PyNone => F64.nan
  end.

(** The rating of a row: line 59 of app.py on one cell. *)
Definition normalize_rating (v : pyval) : F64.float :=
  to_numeric_coerce (replace_no_rating v).

(** Lines 59 to 64 on one row, once its review count is known. *)
Definition clean_row (r : ProductRecord) (n : Z) : CleanedRecord :=
  {| source := r;
     review_count := n;
     rating := normalize_rating (rating_raw r);
     review_count_log10 := np_log10 (wrap64 (n + 1));
     bubble_size := F64.add (F64.sqrt (F64.of_Z n)) (F64.of_Z 10) |}.

(** [df.dropna(subset=['等级_数值'])] *)
Definition dropna (df : list CleanedRecord) : list CleanedRecord :=
  filter (fun x => negb (F64.is_nan (rating x))) df.

(** [load_and_clean_data].  The file is [None] when it is missing or cannot
    be read: an empty data frame is returned then. *)
Definition load_and_clean_data (file : option (list ProductRecord))
  : outcome (list CleanedRecord) :=
  match file with
  | None => Ok []
  | Some df =>
      counts <- astype_int_column (map (fun r => clean_reviews (review_count_raw r)) df) ;;
      Ok (dropna (map (fun rn => clean_row (fst rn) (snd rn)) (combine df counts)))
  end.

End Pipeline.

(** ** Filter and key figures *)

(** Lines 110 to 113: the rows whose rating and whose logarithm of the
    review count are at least the values of the two sliders. *)
Definition df_filtered (df_original : list CleanedRecord)
    (min_rating_slider min_reviews_log : F64.float) : list CleanedRecord :=
  filter (fun x => F64.leb min_rating_slider (rating x)
                   && F64.leb min_reviews_log (review_count_log10 x))
         df_original.

(** The figures of the three [st.metric] calls, before they are formatted.
    [max_reviews] is [None] for the text "N/A". *)
Record KPIs : Type := {
  shown : nat;
  coverage : F64.float;
  avg_rating_filtered : F64.float;
  avg_rating_original : F64.float;
  max_reviews : option Z
}.

Inductive page : Type :=
| Stopped
| Rendered (k : KPIs) (table : list CleanedRecord).

(** [a / b] on two Python integers. *)
Definition true_div (a b : Z) : outcome F64.float :=
  match b with
  | Zpos d => Ok (F64.of_ratio a d)
  | Z0 => Raises
  | Zneg d => Ok (F64.of_ratio (- a) d)
  end.

(** The check of line 75 and the script from line 110 on, for the data frame
    that was loaded and the values the two sliders have returned.  The two
    calls of [st.sidebar.slider] are not part of [render]: what they
    returned comes in as the two thresholds.  A call that raises instead is
    accounted for in [script]. *)
Definition render (df_original : list CleanedRecord)
    (min_rating_slider min_reviews_log : F64.float) : outcome page :=
  match df_original with
  | [] => Ok Stopped
  | _ :: _ =>
      let filtered := df_filtered df_original min_rating_slider min_reviews_log in
      let avg :=
        match filtered with
        | [] => F64.zero
        | _ :: _ => mean (map rating filtered)
        end in
      ratio <- true_div (Z.of_nat (List.length filtered))
                        (Z.of_nat (List.length df_original)) ;;
      Ok (Rendered
            {| shown := List.length filtered;
               coverage := F64.mul ratio (F64.of_Z 100);
               avg_rating_filtered := avg;
               avg_rating_original := mean (map rating df_original);
               max_reviews :=
                 match filtered with
                 | [] => None
                 | _ :: _ => Some (max_int (map review_count filtered))
                 end |}
            filtered)
  end.

(** ** Reference inputs and instances *)

(** The characters on which the case mappings and the digits of this model
    are those of Unicode: ASCII, the white space of [isspace], and the CJK
    unified ideographs U+4E00..U+9FFF. *)
Definition in_scope (c : N) : bool :=
  (c <? 128)%N || isspace c || ((0x4E00 <=? c) && (c <=? 0x9FFF))%N.

(** ['K'] and ['k'] occur in [s] at most as its last character. *)
Definition K_only_last (s : str) : bool :=
  negb (contains (char "K") (removelast s) || contains (char "k") (removelast s)).

(** No minus sign in a text, no negative number in a numpy scalar. *)
Definition no_minus (v : pyval) : bool :=
  match v with
  | PyStr s => negb (contains (char "-") s)
  | NpInt64 n => 0 <=? n
  | NpFloat64 x => negb (F64.sign_bit x)
  | _ => true
  end.

(** The number [clean_reviews] has read is at most -1. *)
Definition at_most_minus_one (v : pyval) : bool :=
  match v with
  | PyFloat x | NpFloat64 x => F64.leb x (F64.of_Z (-1))
  | PyInt n | NpInt64 n => n <=? -1
  | _ => false
  end.

(** The float in a cell, if there is one, is a float of the format. *)
Definition canonical (v : pyval) : bool :=
  match v with
  | PyFloat x | NpFloat64 x => F64.valid x
  | _ => true
  end.

(** What the C standard says of the sign of [log10]: the logarithm of a
    number that is at least one is a number, and it is not negative. *)
Definition log10_sign (np_log10 : Z -> F64.float) : Prop :=
  forall n : Z, 1 <= n -> F64.leb F64.zero (np_log10 n) = true.

(** A coarse logarithm, used where an instance of [np.log10] is called for:
    the number of decimal digits of [n] less one, NaN below zero and minus
    infinity at zero. *)
Fixpoint ilog10 (fuel : nat) (n : Z) : Z :=
  match fuel with
  | O => 0
  | S fuel' => if n <? 10 then 0 else 1 + ilog10 fuel' (n / 10)
  end.

Definition floor_log10 (n : Z) : F64.float :=
  match n with
  | Zneg _ => F64.nan
  | Z0 => S754_infinity true
  | Zpos _ => F64.of_Z (ilog10 64 n)
  end.

(** The rows of the end-to-end scenario of the specification:
    ("A", 4.5, "100"), ("B", "无评分", "50"), ("C", 4.0, "2K"). *)
Definition row_A : ProductRecord :=
  {| title := PyStr (lit "A");
     rating_raw := PyFloat (decimal_to_float 45 (-1));
     review_count_raw := PyStr (lit "100") |}.

Definition row_B : ProductRecord :=
  {| title := PyStr (lit "B");
     rating_raw := PyStr [wu; ping; fen];
     review_count_raw := PyStr (lit "50") |}.

Definition row_C : ProductRecord :=
  {| title := PyStr (lit "C");
     rating_raw := PyFloat (decimal_to_float 40 (-1));
     review_count_raw := PyStr (lit "2K") |}.

Definition scenario : list ProductRecord := [row_A; row_B; row_C].

(** A row whose review count is the text "-5". *)
Definition row_minus_5 : ProductRecord :=
  {| title := PyStr (lit "X");
     rating_raw := PyFloat (decimal_to_float 45 (-1));
     review_count_raw := PyStr (lit "-5") |}.

(** A row whose review count is missing. *)
Definition row_missing_count : ProductRecord :=
  {| title := PyStr (lit "M");
     rating_raw := PyFloat (decimal_to_float 45 (-1));
     review_count_raw := PyFloat F64.nan |}.

(** ** The sliders and the script as a whole *)

(** [Series.min()] and [Series.max()] on a column of floats: the cells that
    are NaN are skipped, and the result is NaN when nothing is left.  (Of two
    cells that compare equal, as the two zeros do, the earlier is kept.) *)
Definition series_min (l : list F64.float) : F64.float :=
  match filter (fun x => negb (F64.is_nan x)) l with
  | [] => F64.nan
  | x :: l' => fold_left (fun acc y => if F64.ltb y acc then y else acc) l' x
  end.

Definition series_max (l : list F64.float) : F64.float :=
  match filter (fun x => negb (F64.is_nan x)) l with
  | [] => F64.nan
  | x :: l' => fold_left (fun acc y => if F64.ltb acc y then y else acc) l' x
  end.

(** Lines 82 and 83. *)
Definition min_rating_val (df_original : list CleanedRecord) : F64.float :=
  series_min (map rating df_original).

Definition max_rating_val (df_original : list CleanedRecord) : F64.float :=
  series_max (map rating df_original).

(** Lines 95 to 98. *)
Definition min_log_val : F64.float := F64.zero.

Definition max_log_val (df_original : list CleanedRecord) : F64.float :=
  let max_log_val := series_max (map review_count_log10 df_original) in
  if F64.ltb max_log_val (F64.of_Z 1) then F64.of_Z 1 else max_log_val.

(** What a call of [st.sidebar.slider] is given: the two ends of the range
    and the value the slider starts at. *)
Record slider : Type := {
  min_value : F64.float;
  max_value : F64.float;
  value : F64.float
}.

(** Lines 85 to 91 and lines 100 to 107. *)
Definition rating_slider (df_original : list CleanedRecord) : slider :=
  {| min_value := min_rating_val df_original;
     max_value := max_rating_val df_original;
     value := min_rating_val df_original |}.

Definition reviews_slider (df_original : list CleanedRecord) : slider :=
  {| min_value := min_log_val;
     max_value := max_log_val df_original;
     value := F64.of_Z 1 |}.

(** The script from line 73 on, once both sliders have returned: the file
    is loaded and cleaned, then the page is drawn for the values the two
    sliders have returned. *)
Definition dashboard (np_log10 : Z -> F64.float)
    (to_double : str -> option F64.float)
    (file : option (list ProductRecord))
    (min_rating_slider min_reviews_log : F64.float) : outcome page :=
  df_original <- load_and_clean_data np_log10 to_double file ;;
  render df_original min_rating_slider min_reviews_log.

(** The script from line 73 on, with the two calls of [st.sidebar.slider]
    in their place.  A call either returns the value chosen on the slider or
    raises: Streamlit refuses some arguments (a range whose two ends are
    equal, for one).  What a call does is the parameter [st_slider], which
    is given the number its label starts with (1 for the rating, 2 for the
    reviews) and the arguments of the call. *)
Definition script (st_slider : N -> slider -> outcome F64.float)
    (np_log10 : Z -> F64.float)
    (to_double : str -> option F64.float)
    (file : option (list ProductRecord)) : outcome page :=
  df_original <- load_and_clean_data np_log10 to_double file ;;
  match df_original with
  | [] => Ok Stopped
  | _ :: _ =>
      min_rating_slider <- st_slider 1%N (rating_slider df_original) ;;
      min_reviews_log <- st_slider 2%N (reviews_slider df_original) ;;
      render df_original min_rating_slider min_reviews_log
  end.

(** The characters that can occur in a text [float] reads as a number:
    white space, the underscore, the digits, the signs, the point and the
    letters of an exponent, of "infinity" and of "nan", in either case. *)
Definition token_char (c : N) : bool :=
  is_digit c
  || existsb (N.eqb c) (lit "+-.einftya").

Definition float_char (c : N) : bool :=
  float_space c || N.eqb c (char "_") || token_char (lower_char c).

(** * Facts *)

(** ** Binary64 numbers *)

(** *** Order *)

Lemma leb_trans (a b c : F64.float) :
  F64.leb a b = true -> F64.leb b c = true -> F64.leb a c = true.
Proof.
  unfold F64.leb, SFleb.
  destruct a as [sa|sa| |sa ma ea], b as [sb|sb| |sb mb eb], c as [sc|sc| |sc mc ec];
    simpl; try discriminate; try reflexivity;
    try (destruct sa; simpl; try discriminate; try reflexivity);
    try (destruct sb; simpl; try discriminate; try reflexivity);
    try (destruct sc; simpl; try discriminate; try reflexivity).
  all: change (Pos.compare_cont Eq) with Pos.compare.
  all: destruct (Z.compare_spec ea eb), (Z.compare_spec eb ec); simpl; try discriminate;
       try (destruct (Z.compare_spec ea ec); simpl; try reflexivity; try lia).
  all: subst.
  all: destruct (Pos.compare_spec ma mb), (Pos.compare_spec mb mc); simpl; try discriminate;
       destruct (Pos.compare_spec ma mc); simpl; try reflexivity; try lia.
Qed.


(** *** Signs through rounding *)

Lemma shr_1_nonneg (mrs : shr_record) : 0 <= shr_m mrs -> 0 <= shr_m (shr_1 mrs).
Proof.
  destruct mrs as [m r s]; simpl.
  destruct m as [|p|p]; simpl; try lia.
  destruct p; simpl; lia.
Qed.

Lemma iter_pos_invariant {A : Type} (P : A -> Prop) (f : A -> A) :
  (forall x, P x -> P (f x)) -> forall p x, P x -> P (iter_pos f p x).
Proof.
  intros Hf p; induction p as [p IH|p IH|]; intros x Hx; simpl; auto.
Qed.

Lemma shr_nonneg (mrs : shr_record) (e n : Z) :
  0 <= shr_m mrs -> 0 <= shr_m (fst (shr mrs e n)).
Proof.
  intros H. unfold shr. destruct n; simpl; auto.
  apply (iter_pos_invariant (fun r => 0 <= shr_m r)); auto using shr_1_nonneg.
Qed.

Lemma shr_m_of_loc (m : Z) (l : location) : shr_m (shr_record_of_loc m l) = m.
Proof. destruct l as [|[ | | ]]; reflexivity. Qed.

Lemma shr_fexp_nonneg (m e : Z) (l : location) :
  0 <= m -> 0 <= shr_m (fst (shr_fexp F64.prec F64.emax m e l)).
Proof.
  intros H. unfold shr_fexp. apply shr_nonneg. now rewrite shr_m_of_loc.
Qed.

Lemma round_nearest_even_nonneg (m : Z) (l : location) :
  0 <= m -> 0 <= round_nearest_even m l.
Proof.
  intros H. unfold round_nearest_even.
  destruct l as [|[ | | ]]; try lia. destruct (Z.even m); lia.
Qed.

(** Rounding a mantissa that is not negative gives a number with the sign
    asked for, never a NaN. *)
Lemma binary_round_aux_sign (s : bool) (m e : Z) (l : location) :
  0 <= m ->
  F64.is_nan (binary_round_aux F64.prec F64.emax s m e l) = false /\
  F64.sign_bit (binary_round_aux F64.prec F64.emax s m e l) = s.
Proof.
  intros H. unfold binary_round_aux.
  pose proof (shr_fexp_nonneg m e l H) as H1.
  destruct (shr_fexp F64.prec F64.emax m e l) as [mrs' e'] eqn:E1. simpl in H1.
  pose proof (shr_fexp_nonneg _ e' loc_Exact
                (round_nearest_even_nonneg _ (loc_of_shr_record mrs') H1)) as H2.
  destruct (shr_fexp F64.prec F64.emax _ e' loc_Exact) as [mrs'' e''] eqn:E2. simpl in H2.
  destruct (shr_m mrs'') as [|p|p]; [split; reflexivity| |lia].
  destruct (_ <=? _); split; reflexivity.
Qed.

Lemma binary_round_sign (s : bool) (m : positive) (e : Z) :
  F64.is_nan (binary_round F64.prec F64.emax s m e) = false /\
  F64.sign_bit (binary_round F64.prec F64.emax s m e) = s.
Proof.
  unfold binary_round.
  destruct (shl_align m e _) as [mz ez]. apply binary_round_aux_sign. lia.
Qed.

Lemma of_Z_sign (n : Z) :
  0 <= n -> F64.is_nan (F64.of_Z n) = false /\ F64.sign_bit (F64.of_Z n) = false.
Proof.
  intros H. unfold F64.of_Z, binary_normalize.
  destruct n as [|p|p]; try (split; reflexivity); try lia.
  apply binary_round_sign.
Qed.

Lemma of_ratio_sign (n : Z) (d : positive) :
  0 <= n -> F64.sign_bit (F64.of_ratio n d) = false.
Proof.
  intros H. unfold F64.of_ratio.
  destruct n as [|p|p]; try reflexivity; try lia.
  unfold F64.div, SFdiv.
  destruct (SFdiv_core_binary F64.prec F64.emax (Z.pos p) 0 (Z.pos d) 0) as [[mz ez] lz] eqn:E.
  apply binary_round_aux_sign.
  unfold SFdiv_core_binary in E.
  set (m' := match _ with Z.pos _ => _ | Z0 => _ | Z.neg _ => _ end) in E.
  assert (Hm : 0 <= m').
  { subst m'. destruct (_ - _ - _); try lia. apply Z.shiftl_nonneg. lia. }
  pose proof (Z_div_mod m' (Z.pos d) ltac:(lia)) as Hd.
  destruct (Z.div_eucl m' (Z.pos d)) as [q r]. inversion E; subst.
  destruct Hd as [Hq Hr]. nia.
Qed.

Lemma mul_sign (x y : F64.float) :
  F64.sign_bit x = false -> F64.sign_bit y = false ->
  F64.sign_bit (F64.mul x y) = false.
Proof.
  destruct x as [sx|sx| |sx mx ex], y as [sy|sy| |sy my ey]; simpl;
    intros Hx Hy; subst; try reflexivity.
  apply (binary_round_aux_sign false). lia.
Qed.

Lemma trunc_nonneg (x : F64.float) : F64.sign_bit x = false -> 0 <= F64.trunc x.
Proof.
  destruct x as [s|s| |s m e]; simpl; try lia.
  intros H. subst. simpl. apply Z.shiftl_nonneg. lia.
Qed.

Lemma sqrt_sign (x : F64.float) :
  F64.is_nan x = false -> F64.sign_bit x = false ->
  F64.is_nan (F64.sqrt x) = false /\ F64.sign_bit (F64.sqrt x) = false.
Proof.
  destruct x as [s|s| |s m e]; simpl; try discriminate; intros _ H;
    subst; try (split; reflexivity).
  unfold F64.sqrt, SFsqrt.
  destruct (SFsqrt_core_binary F64.prec F64.emax (Z.pos m) e) as [[mz ez] lz] eqn:E.
  apply (binary_round_aux_sign false).
  unfold SFsqrt_core_binary in E.
  set (m' := match _ with Z.pos _ => _ | Z0 => _ | Z.neg _ => _ end) in E.
  assert (Hm : 0 <= m').
  { subst m'. destruct (_ - _); try lia. apply Z.shiftl_nonneg. lia. }
  pose proof (Z.sqrtrem_spec m' Hm) as Hs.
  destruct (Z.sqrtrem m') as [q r]. inversion E; subst. lia.
Qed.

(** *** Numbers that do not round to zero *)

Lemma shr_1_div2 (mrs : shr_record) :
  0 <= shr_m mrs -> shr_m (shr_1 mrs) = Z.shiftr (shr_m mrs) 1.
Proof.
  rewrite <- Z.div2_spec.
  destruct mrs as [m r s]; simpl.
  destruct m as [|p|p]; simpl; try lia; try reflexivity.
  destruct p; reflexivity.
Qed.

Lemma iter_shr_1 (p : positive) (mrs : shr_record) :
  0 <= shr_m mrs ->
  0 <= shr_m (iter_pos shr_1 p mrs) /\
  shr_m (iter_pos shr_1 p mrs) = Z.shiftr (shr_m mrs) (Z.pos p).
Proof.
  revert mrs; induction p as [p IH|p IH|]; intros mrs H; simpl.
  - pose proof (shr_1_nonneg mrs H) as H1.
    destruct (IH _ H1) as [H2 E2]. destruct (IH _ H2) as [H3 E3].
    split; [assumption|].
    rewrite E3, E2, shr_1_div2, !Z.shiftr_shiftr by lia.
    f_equal. lia.
  - destruct (IH _ H) as [H2 E2]. destruct (IH _ H2) as [H3 E3].
    split; [assumption|].
    rewrite E3, E2, !Z.shiftr_shiftr by lia. f_equal. lia.
  - split; [now apply shr_1_nonneg | now apply shr_1_div2].
Qed.

Lemma digits2_pos_log2 (p : positive) :
  Z.pos (digits2_pos p) = Z.log2 (Z.pos p) + 1.
Proof.
  induction p as [p IH|p IH|]; simpl; try reflexivity.
  - rewrite Pos2Z.inj_succ, IH. destruct p; simpl; lia.
  - rewrite Pos2Z.inj_succ, IH. destruct p; simpl; lia.
Qed.

Lemma Zdigits2_log2 (m : Z) : 0 < m -> Zdigits2 m = Z.log2 m + 1.
Proof. destruct m; try lia. intros _. apply digits2_pos_log2. Qed.

(** A positive mantissa in the range of the normal numbers stays positive
    when it is shifted to the precision, and its magnitude is kept. *)
Lemma shr_fexp_pos (m e : Z) (l : location) :
  0 < m -> F64.prec + emin F64.prec F64.emax <= Zdigits2 m + e ->
  0 < shr_m (fst (shr_fexp F64.prec F64.emax m e l)) /\
  Zdigits2 m + e <=
    Zdigits2 (shr_m (fst (shr_fexp F64.prec F64.emax m e l)))
    + snd (shr_fexp F64.prec F64.emax m e l).
Proof.
  intros Hm Hr. unfold shr_fexp, shr.
  assert (Hn : fexp F64.prec F64.emax (Zdigits2 m + e) - e = Zdigits2 m - F64.prec).
  { unfold fexp. lia. }
  rewrite Hn.
  destruct (Zdigits2 m - F64.prec) as [|p|p] eqn:Ep; simpl fst; simpl snd;
    rewrite ?shr_m_of_loc; try lia.
  destruct (iter_shr_1 p (shr_record_of_loc m l)) as [_ E];
    [rewrite shr_m_of_loc; lia|].
  rewrite E, shr_m_of_loc.
  rewrite Zdigits2_log2 in * by assumption.
  assert (Hp : Z.pos p <= Z.log2 m) by (unfold F64.prec in Ep; lia).
  assert (Hpos : 0 < Z.shiftr m (Z.pos p)).
  { rewrite Z.shiftr_div_pow2 by lia.
    apply Z.div_str_pos. split; [apply Z.pow_pos_nonneg; lia|].
    transitivity (2 ^ Z.log2 m).
    - apply Z.pow_le_mono_r; lia.
    - apply Z.log2_spec. assumption. }
  split; [assumption|].
  rewrite Zdigits2_log2 by assumption.
  rewrite Z.log2_shiftr by assumption. lia.
Qed.

Lemma round_nearest_even_ge (m : Z) (l : location) : m <= round_nearest_even m l.
Proof.
  unfold round_nearest_even.
  destruct l as [|[ | | ]]; try lia. destruct (Z.even m); lia.
Qed.

Lemma binary_round_aux_pos (m e : Z) (l : location) :
  0 < m -> F64.prec + emin F64.prec F64.emax <= Zdigits2 m + e ->
  F64.ltb F64.zero (binary_round_aux F64.prec F64.emax false m e l) = true.
Proof.
  intros Hm Hr. unfold binary_round_aux.
  destruct (shr_fexp_pos m e l Hm Hr) as [H1 D1].
  destruct (shr_fexp F64.prec F64.emax m e l) as [mrs' e'] eqn:E1.
  simpl fst in *; simpl snd in *.
  set (m2 := round_nearest_even (shr_m mrs') (loc_of_shr_record mrs')).
  assert (H2 : shr_m mrs' <= m2) by apply round_nearest_even_ge.
  assert (D2 : F64.prec + emin F64.prec F64.emax <= Zdigits2 m2 + e').
  { rewrite (Zdigits2_log2 m2) by lia.
    rewrite (Zdigits2_log2 (shr_m mrs')) in D1 by lia.
    pose proof (Z.log2_le_mono _ _ H2). lia. }
  destruct (shr_fexp_pos m2 e' loc_Exact ltac:(lia) D2) as [H3 _].
  destruct (shr_fexp F64.prec F64.emax m2 e' loc_Exact) as [mrs'' e''].
  simpl fst in *.
  destruct (shr_m mrs'') as [|p|p]; try lia.
  destruct (_ <=? _); reflexivity.
Qed.

Lemma digits2_pos_iter_xO (m d : positive) :
  Z.pos (digits2_pos (Pos.iter xO m d)) = Z.pos (digits2_pos m) + Z.pos d.
Proof.
  induction d as [|d IH] using Pos.peano_ind.
  - simpl. lia.
  - rewrite Pos.iter_succ. simpl. rewrite Pos2Z.inj_succ, IH. lia.
Qed.

(** What [shl_align] does to the magnitude of a number: nothing. *)
Lemma shl_align_digits (m : positive) (e e' : Z) :
  Z.pos (digits2_pos (fst (shl_align m e e'))) + snd (shl_align m e e')
  = Z.pos (digits2_pos m) + e.
Proof.
  unfold shl_align.
  destruct (e' - e) as [|d|d] eqn:E; simpl fst; simpl snd; try reflexivity.
  rewrite digits2_pos_iter_xO. lia.
Qed.

Lemma binary_round_pos (m : positive) (e : Z) :
  F64.prec + emin F64.prec F64.emax <= Z.pos (digits2_pos m) + e ->
  F64.ltb F64.zero (binary_round F64.prec F64.emax false m e) = true.
Proof.
  intros H. unfold binary_round.
  pose proof (shl_align_digits m e (fexp F64.prec F64.emax (Z.pos (digits2_pos m) + e))) as D.
  destruct (shl_align m e _) as [mz ez]. simpl fst in D; simpl snd in D.
  apply binary_round_aux_pos; [lia|].
  change (Zdigits2 (Z.pos mz)) with (Z.pos (digits2_pos mz)). lia.
Qed.

(** Adding a positive normal number to a number that is not negative gives a
    positive number. *)
Lemma add_pos (x : F64.float) (my : positive) (ey : Z) :
  F64.is_nan x = false -> F64.sign_bit x = false ->
  F64.prec + emin F64.prec F64.emax <= Z.pos (digits2_pos my) + ey ->
  F64.ltb F64.zero (F64.add x (S754_finite false my ey)) = true.
Proof.
  intros Hn Hs Hy.
  destruct x as [s|s| |s mx ex]; simpl in Hn, Hs; try discriminate; subst.
  - reflexivity.
  - reflexivity.
  - unfold F64.add, SFadd, cond_Zopp.
    set (ez := Z.min ex ey).
    pose proof (shl_align_digits my ey ez) as Db.
    assert (Eb : snd (shl_align my ey ez) = ez).
    { unfold shl_align. destruct (ez - ey) eqn:E; simpl; lia. }
    rewrite Eb in Db.
    set (a := fst (shl_align mx ex ez)) in *.
    set (b := fst (shl_align my ey ez)) in *.
    change (Z.pos a + Z.pos b) with (Z.pos (a + b)).
    unfold binary_normalize. apply binary_round_pos.
    rewrite !digits2_pos_log2 in *.
    assert (Z.log2 (Z.pos b) <= Z.log2 (Z.pos (a + b))) by (apply Z.log2_le_mono; lia).
    lia.
Qed.

(** *** Floats of the format *)

Ltac fexp_lia := unfold fexp, emin, F64.prec, F64.emax in *; lia.

Lemma fexp_mono (a b : Z) :
  a <= b -> fexp F64.prec F64.emax a <= fexp F64.prec F64.emax b.
Proof. fexp_lia. Qed.

Lemma fexp_emin (a : Z) : emin F64.prec F64.emax <= fexp F64.prec F64.emax a.
Proof. fexp_lia. Qed.

Lemma shiftr_zero_digits (m p : Z) :
  0 < m -> 0 < p -> Z.shiftr m p = 0 -> Zdigits2 m <= p.
Proof.
  intros Hm Hp H. rewrite Zdigits2_log2 by assumption.
  apply Z.shiftr_eq_0_iff in H. destruct H as [H|[_ H]]; lia.
Qed.

Lemma shiftr_pos_digits (m p : Z) :
  0 < m -> 0 < p -> 0 < Z.shiftr m p ->
  Zdigits2 (Z.shiftr m p) = Zdigits2 m - p.
Proof.
  intros Hm Hp H. rewrite !Zdigits2_log2 by assumption.
  rewrite Z.log2_shiftr by assumption.
  assert (p <= Z.log2 m); [|lia].
  destruct (Z_le_gt_dec p (Z.log2 m)) as [L|G]; [assumption|].
  rewrite Z.shiftr_eq_0 in H; lia.
Qed.

(** Shifting a mantissa to the exponent of the format gives a canonical
    pair, when the exponent it comes with is not above that one. *)
Lemma shr_fexp_canonical (m e : Z) (l : location) :
  0 <= m -> e <= fexp F64.prec F64.emax (Zdigits2 m + e) ->
  0 <= shr_m (fst (shr_fexp F64.prec F64.emax m e l)) /\
  F64.canonical_pair (shr_m (fst (shr_fexp F64.prec F64.emax m e l)))
                 (snd (shr_fexp F64.prec F64.emax m e l)).
Proof.
  intros Hm He. unfold shr_fexp, shr, F64.canonical_pair.
  destruct (fexp F64.prec F64.emax (Zdigits2 m + e) - e) as [|p|p] eqn:En;
    simpl fst; simpl snd; rewrite ?shr_m_of_loc; try lia.
  - split; [assumption|].
    destruct (Z.eq_dec m 0) as [->|Hn].
    + left. split; [reflexivity|]. simpl in En. fexp_lia.
    + right. split; lia.
  - destruct (iter_shr_1 p (shr_record_of_loc m l)) as [H0 E];
      [rewrite shr_m_of_loc; lia|].
    rewrite E, shr_m_of_loc in *. split; [assumption|].
    destruct (Z.eq_dec (Z.shiftr m (Z.pos p)) 0) as [Hz|Hn].
    + left. split; [assumption|].
      destruct (Z.eq_dec m 0) as [->|Hm0].
      * simpl in En. fexp_lia.
      * pose proof (shiftr_zero_digits m (Z.pos p) ltac:(lia) ltac:(lia) Hz).
        fexp_lia.
    + right. split; [lia|].
      assert (Hm0 : 0 < m).
      { destruct (Z.eq_dec m 0) as [->|]; [|lia]. rewrite Z.shiftr_0_l in Hn. lia. }
      rewrite shiftr_pos_digits by lia.
      replace (Zdigits2 m - Z.pos p + (e + Z.pos p)) with (Zdigits2 m + e) by lia.
      lia.
Qed.

Lemma round_nearest_even_le (m : Z) (l : location) : round_nearest_even m l <= m + 1.
Proof.
  unfold round_nearest_even.
  destruct l as [|[ | | ]]; try lia. destruct (Z.even m); lia.
Qed.

Lemma Zdigits2_mono (a b : Z) : 0 <= a <= b -> Zdigits2 a <= Zdigits2 b.
Proof.
  intros [Ha Hab].
  destruct (Z.eq_dec a 0) as [->|Hn].
  - destruct b; simpl; lia.
  - rewrite !Zdigits2_log2 by lia.
    pose proof (Z.log2_le_mono a b Hab). lia.
Qed.

(** Rounding gives a float of the format. *)
Lemma binary_round_aux_valid (s : bool) (m e : Z) (l : location) :
  0 <= m -> e <= fexp F64.prec F64.emax (Zdigits2 m + e) ->
  F64.valid (binary_round_aux F64.prec F64.emax s m e l) = true.
Proof.
  intros Hm He. unfold binary_round_aux.
  destruct (shr_fexp_canonical m e l Hm He) as [H1 C1].
  destruct (shr_fexp F64.prec F64.emax m e l) as [mrs' e'].
  simpl fst in *; simpl snd in *.
  set (m2 := round_nearest_even (shr_m mrs') (loc_of_shr_record mrs')).
  assert (L2 : shr_m mrs' <= m2) by apply round_nearest_even_ge.
  assert (U2 : m2 <= shr_m mrs' + 1) by apply round_nearest_even_le.
  assert (P2 : e' <= fexp F64.prec F64.emax (Zdigits2 m2 + e')).
  { destruct C1 as [[Hz Ee]|[Hp Ee]].
    - rewrite Ee. apply fexp_emin.
    - rewrite <- Ee at 1. apply fexp_mono.
      pose proof (Zdigits2_mono (shr_m mrs') m2 ltac:(lia)). lia. }
  destruct (shr_fexp_canonical m2 e' loc_Exact ltac:(lia) P2) as [H3 C3].
  destruct (shr_fexp F64.prec F64.emax m2 e' loc_Exact) as [mrs'' e''].
  simpl fst in *; simpl snd in *.
  destruct (shr_m mrs'') as [|p|p] eqn:Ep; try reflexivity.
  destruct (e'' <=? F64.emax - F64.prec) eqn:Ee; [|reflexivity].
  unfold F64.valid, valid_binary, bounded, canonical_mantissa.
  rewrite Ee, andb_true_r. apply Z.eqb_eq.
  destruct C3 as [[Hz _]|[_ C3]]; [discriminate|]. exact C3.
Qed.

Lemma valid_opp (x : F64.float) : F64.valid x = true -> F64.valid (SFopp x) = true.
Proof. destruct x; simpl; trivial. Qed.

Lemma div_core_precondition (m1 m2 : positive) (q e' : Z) (l : location) :
  SFdiv_core_binary F64.prec F64.emax (Z.pos m1) 0 (Z.pos m2) 0 = (q, e', l) ->
  0 <= q /\ e' <= fexp F64.prec F64.emax (Zdigits2 q + e').
Proof.
  unfold SFdiv_core_binary.
  set (d1 := Zdigits2 (Z.pos m1)). set (d2 := Zdigits2 (Z.pos m2)).
  set (e0 := Z.min (fexp F64.prec F64.emax (d1 + 0 - (d2 + 0))) (0 - 0)).
  set (m' := match 0 - 0 - e0 with Z.pos _ => _ | Z0 => _ | Z.neg _ => _ end).
  assert (Hm' : m' = Z.pos m1 * 2 ^ (- e0)).
  { subst m'. assert (e0 <= 0) by (subst e0; lia).
    destruct (0 - 0 - e0) as [|p|p] eqn:Es; try lia.
    - replace (- e0) with 0 by lia. lia.
    - rewrite Z.shiftl_mul_pow2 by lia. f_equal. f_equal. lia. }
  pose proof (Z_div_mod m' (Z.pos m2) ltac:(lia)) as Hd.
  destruct (Z.div_eucl m' (Z.pos m2)) as [q0 r0].
  intros E; inversion E; subst q0 e'. clear E.
  destruct Hd as [Hq Hr].
  assert (He0 : e0 <= 0) by (subst e0; lia).
  assert (Hpow : 0 < 2 ^ (- e0)) by (apply Z.pow_pos_nonneg; lia).
  assert (Hq0 : 0 <= q) by nia.
  split; [assumption|].
  assert (D1 : 2 ^ (d1 - 1) <= Z.pos m1 < 2 ^ d1).
  { subst d1. rewrite Zdigits2_log2 by lia.
    replace (Z.log2 (Z.pos m1) + 1 - 1) with (Z.log2 (Z.pos m1)) by lia.
    replace (Z.log2 (Z.pos m1) + 1) with (Z.succ (Z.log2 (Z.pos m1))) by lia.
    apply Z.log2_spec. lia. }
  assert (D2 : 2 ^ (d2 - 1) <= Z.pos m2 < 2 ^ d2).
  { subst d2. rewrite Zdigits2_log2 by lia.
    replace (Z.log2 (Z.pos m2) + 1 - 1) with (Z.log2 (Z.pos m2)) by lia.
    replace (Z.log2 (Z.pos m2) + 1) with (Z.succ (Z.log2 (Z.pos m2))) by lia.
    apply Z.log2_spec. lia. }
  assert (P1 : 1 <= d1) by (subst d1; simpl; lia).
  assert (P2 : 1 <= d2) by (subst d2; simpl; lia).
  assert (F0 : e0 <= fexp F64.prec F64.emax (d1 - d2)).
  { subst e0. replace (d1 + 0 - (d2 + 0)) with (d1 - d2) by lia. lia. }
  destruct (Z.eq_dec q 0) as [->|Hq1].
  - (* the quotient is below one unit: the exponent is the least one *)
    simpl Zdigits2.
    assert (Hlt : m' < Z.pos m2) by lia.
    assert (Hs : d1 - 1 - e0 < d2).
    { apply (Z.pow_lt_mono_r_iff 2); [lia|lia|].
      replace (d1 - 1 - e0) with ((d1 - 1) + (- e0)) by lia.
      rewrite Z.pow_add_r by lia. nia. }
    fexp_lia.
  - assert (Hq2 : 0 < q) by lia.
    transitivity (fexp F64.prec F64.emax (d1 - d2)); [assumption|].
    apply fexp_mono. rewrite Zdigits2_log2 by assumption.
    destruct (Z_le_gt_dec (d1 - d2 - e0) 0) as [L|G].
    + pose proof (Z.log2_nonneg q). lia.
    + assert (2 ^ (d1 - d2 - e0 - 1) <= q); [|
        assert (d1 - d2 - e0 - 1 <= Z.log2 q)
          by (apply Z.log2_le_pow2; [lia|assumption]); lia].
      (* q * m2 + r = m1 * 2^-e0 >= 2^(d1 - 1 - e0), m2 < 2^d2 *)
      assert (Hbig : 2 ^ (d1 - 1) * 2 ^ (- e0) <= q * Z.pos m2 + r0) by nia.
      destruct (Z_lt_le_dec q (2 ^ (d1 - d2 - e0 - 1))) as [Hlt|]; [|assumption].
      exfalso.
      assert (q + 1 <= 2 ^ (d1 - d2 - e0 - 1)) by lia.
      assert (Hprod : (q + 1) * Z.pos m2 < 2 ^ (d1 - d2 - e0 - 1) * 2 ^ d2) by nia.
      rewrite <- Z.pow_add_r in Hprod by lia.
      rewrite <- Z.pow_add_r in Hbig by lia.
      replace (d1 - d2 - e0 - 1 + d2) with (d1 - 1 + - e0) in Hprod by lia.
      nia.
Qed.

Lemma of_ratio_valid (n : Z) (d : positive) : F64.valid (F64.of_ratio n d) = true.
Proof.
  unfold F64.of_ratio, F64.div, SFdiv.
  destruct n as [|p|p]; [reflexivity| |];
    destruct (SFdiv_core_binary F64.prec F64.emax (Z.pos p) 0 (Z.pos d) 0)
      as [[q e'] l] eqn:E;
    destruct (div_core_precondition p d q e' l E);
    now apply binary_round_aux_valid.
Qed.

Lemma digits2_pos_mul (a b : positive) :
  Z.pos (digits2_pos a) + Z.pos (digits2_pos b) - 1 <= Z.pos (digits2_pos (a * b)).
Proof.
  rewrite !digits2_pos_log2.
  pose proof (Z.log2_mul_below (Z.pos a) (Z.pos b) ltac:(lia) ltac:(lia)).
  change (Z.pos (a * b)) with (Z.pos a * Z.pos b). lia.
Qed.

(** Multiplying a float of the format by a thousand gives a float of the
    format. *)
Lemma mul_1000_valid (x : F64.float) :
  F64.valid x = true -> F64.valid (F64.mul x (F64.of_Z 1000)) = true.
Proof.
  change (F64.of_Z 1000) with (S754_finite false 8796093022208000 (-43)).
  destruct x as [s|s| |s m e]; try reflexivity.
  unfold F64.valid, valid_binary, bounded, canonical_mantissa. intros H.
  apply andb_true_iff in H as [H _]. apply Z.eqb_eq in H.
  unfold F64.mul, SFmul. apply binary_round_aux_valid; [lia|].
  change (Zdigits2 (Z.pos (m * 8796093022208000)))
    with (Z.pos (digits2_pos (m * 8796093022208000))).
  pose proof (digits2_pos_mul m 8796093022208000) as D.
  change (Z.pos (digits2_pos 8796093022208000)) with 53 in D.
  fexp_lia.
Qed.

Lemma pow2_52 : 2 ^ 52 = 4503599627370496.
Proof. reflexivity. Qed.

Lemma shiftl_neg_ge_1 (m : positive) (e : Z) :
  e < 0 -> - e <= Z.log2 (Z.pos m) -> 1 <= Z.shiftl (Z.pos m) e.
Proof.
  intros He Hl. rewrite <- Z.shiftr_opp_r, Z.shiftr_div_pow2 by lia.
  apply Z.div_le_lower_bound; [apply Z.pow_pos_nonneg; lia|].
  rewrite Z.mul_1_r.
  transitivity (2 ^ Z.log2 (Z.pos m)).
  - apply Z.pow_le_mono_r; lia.
  - apply Z.log2_spec. lia.
Qed.

Lemma shiftl_nonneg_ge_1 (m : positive) (e : Z) :
  0 <= e -> 1 <= Z.shiftl (Z.pos m) e.
Proof.
  intros He. rewrite Z.shiftl_mul_pow2 by lia.
  assert (0 < 2 ^ e) by (apply Z.pow_pos_nonneg; lia). nia.
Qed.

(** A finite float of the format is at most -1 exactly when its integer
    part is. *)
Lemma leb_minus_one (x : F64.float) :
  F64.valid x = true -> F64.is_finite x = true ->
  F64.leb x (F64.of_Z (-1)) = true <-> F64.trunc x <= -1.
Proof.
  replace (F64.of_Z (-1)) with (S754_finite true 4503599627370496 (-52))
    by (vm_compute; reflexivity).
  destruct x as [s|s| |s m e].
  - intros _ _. split; [discriminate|]. simpl. lia.
  - intros _ H; discriminate H.
  - intros _ H; discriminate H.
  - unfold F64.valid, valid_binary, bounded, canonical_mantissa. intros H _.
    apply andb_true_iff in H as [H _]. apply Z.eqb_eq in H.
    rewrite digits2_pos_log2 in H.
    destruct s.
    + unfold F64.leb, SFleb, SFcompare, F64.trunc, cond_Zopp.
      destruct (Z.compare_spec e (-52)) as [Ee|Ee|Ee].
      * assert (Hl : Z.log2 (Z.pos m) = 52) by fexp_lia.
        split; intros _.
        -- pose proof (shiftl_neg_ge_1 m e ltac:(lia) ltac:(lia)). lia.
        -- rewrite Pos.compare_cont_spec. unfold Pos.switch_Eq.
           rewrite Pos2Z.inj_compare.
           pose proof (Z.log2_spec (Z.pos m) (Pos2Z.is_pos m)) as [Lo _].
           rewrite Hl, pow2_52 in Lo.
           destruct (Z.compare_spec (Z.pos m) 4503599627370496) as [Em|Em|Em];
             try reflexivity.
           exfalso. clear - Lo Em. lia.
      * assert (Hl : Z.log2 (Z.pos m) + 1 <= 53) by fexp_lia.
        split; [intros D; discriminate D|].
        rewrite <- Z.shiftr_opp_r, Z.shiftr_eq_0; [lia|lia|lia].
      * assert (Hl : Z.log2 (Z.pos m) = 52) by fexp_lia.
        split; [intros _|reflexivity].
        destruct (Z_le_gt_dec 0 e) as [P|N].
        -- pose proof (shiftl_nonneg_ge_1 m e P). lia.
        -- pose proof (shiftl_neg_ge_1 m e ltac:(lia) ltac:(lia)). lia.
    + split; [intros D; discriminate D|]. simpl.
      pose proof (Z.shiftl_nonneg (Z.pos m) e). lia.
Qed.

(** ** Strings *)

Lemma lower_upper_char (c : N) : lower_char (upper_char c) = lower_char c.
Proof.
  unfold lower_char, upper_char.
  destruct ((97 <=? c)%N && (c <=? 122)%N) eqn:E1.
  - apply andb_true_iff in E1 as [H1 H2].
    apply N.leb_le in H1. apply N.leb_le in H2.
    replace ((65 <=? c - 32)%N && (c - 32 <=? 90)%N) with true
      by (symmetry; apply andb_true_iff; split; apply N.leb_le; lia).
    replace ((65 <=? c)%N && (c <=? 90)%N) with false
      by (symmetry; apply andb_false_iff; right; apply N.leb_gt; lia).
    lia.
  - reflexivity.
Qed.

Lemma lower_upper (s : str) : lower (upper s) = lower s.
Proof.
  unfold lower, upper. rewrite map_map. apply map_ext. apply lower_upper_char.
Qed.

(** [float] reads a text and the same text in upper case alike. *)
Lemma py_float_upper (s : str) : py_float (upper s) = py_float s.
Proof. unfold py_float. now rewrite lower_upper. Qed.

Lemma contains_app (c : N) (s t : str) :
  contains c (s ++ t) = contains c s || contains c t.
Proof. apply existsb_app. Qed.

Lemma contains_In (c : N) (s : str) : contains c s = true <-> In c s.
Proof.
  unfold contains. rewrite existsb_exists. split.
  - intros [x [H E]]. apply N.eqb_eq in E. now subst.
  - intros H. exists c. split; [assumption | apply N.eqb_refl].
Qed.

Lemma contains_false (c : N) (s : str) : contains c s = false <-> ~ In c s.
Proof.
  rewrite <- contains_In. destruct (contains c s); split; intros; congruence.
Qed.

Lemma remove_char_absent (c : N) (s : str) :
  contains c s = false -> remove_char c s = s.
Proof.
  unfold remove_char, contains. induction s as [|x s IH]; simpl; [reflexivity|].
  intros H. apply orb_false_iff in H as [H1 H2].
  rewrite N.eqb_sym, H1. simpl. now rewrite IH.
Qed.

Lemma upper_char_K (x : N) :
  upper_char x = char "K" -> x = char "K" \/ x = char "k".
Proof.
  unfold upper_char, char. simpl.
  destruct ((97 <=? x)%N && (x <=? 122)%N) eqn:E; intros H; [right|left]; lia.
Qed.

Lemma upper_no_K (s : str) :
  contains (char "K") s = false -> contains (char "k") s = false ->
  contains (char "K") (upper s) = false.
Proof.
  rewrite !contains_false. intros H1 H2 H. unfold upper in H.
  apply in_map_iff in H as [x [E Hx]].
  destruct (upper_char_K x E); subst; auto.
Qed.

Lemma upper_char_of_K (c : N) :
  (c =? char "K")%N || (c =? char "k")%N = true -> upper_char c = char "K".
Proof.
  intros H. apply orb_true_iff in H as [H|H]; apply N.eqb_eq in H; subst; reflexivity.
Qed.

(** A text that ends with 'K' or 'k', split at that character. *)
Lemma ends_with_K_split (t : str) :
  ends_with_K t = true ->
  exists rest c, t = rest ++ [c] /\ (c =? char "K")%N || (c =? char "k")%N = true.
Proof.
  unfold ends_with_K. destruct (rev t) as [|c r] eqn:E; [discriminate|].
  intros H. exists (rev r), c. split; [|assumption].
  rewrite <- (rev_involutive t), E. reflexivity.
Qed.

Lemma ends_with_K_false (t : str) :
  ends_with_K t = false -> K_only_last t = true ->
  contains (char "K") t = false /\ contains (char "k") t = false.
Proof.
  unfold ends_with_K, K_only_last. intros H1 H2.
  apply negb_true_iff, orb_false_iff in H2 as [H2 H3].
  destruct t as [|x t] using rev_ind; [split; reflexivity|].
  rewrite rev_app_distr in H1. cbn [rev app] in H1.
  apply orb_false_iff in H1 as [H4 H5].
  rewrite removelast_last in H2, H3.
  rewrite !contains_app, H2, H3. unfold contains. cbn [existsb orb].
  rewrite (N.eqb_sym (char "K") x), H4, (N.eqb_sym (char "k") x), H5.
  split; reflexivity.
Qed.

(** Stripping and filtering add no character. *)
Lemma lstrip_In (sp : N -> bool) (c : N) (s : str) : In c (lstrip sp s) -> In c s.
Proof.
  induction s as [|x s IH]; simpl; [auto|].
  destruct (sp x); auto.
Qed.

Lemma rstrip_In (sp : N -> bool) (c : N) (s : str) : In c (rstrip sp s) -> In c s.
Proof.
  unfold rstrip. intros H. apply in_rev in H. apply lstrip_In in H.
  now apply in_rev.
Qed.

Lemma strip_In (c : N) (s : str) : In c (strip s) -> In c s.
Proof. unfold strip. intros H. now apply rstrip_In, lstrip_In in H. Qed.

Lemma remove_char_In (a c : N) (s : str) : In c (remove_char a s) -> In c s.
Proof. unfold remove_char. intros H. now apply filter_In in H. Qed.

Lemma upper_In_minus (s : str) : In (char "-") (upper s) -> In (char "-") s.
Proof.
  unfold upper. intros H. apply in_map_iff in H as [x [E Hx]].
  replace x with (char "-") in Hx; [assumption|].
  revert E. unfold upper_char, char. simpl.
  destruct ((97 <=? x)%N && (x <=? 122)%N) eqn:E1; [|congruence].
  apply andb_true_iff in E1 as [H1 H2].
  apply N.leb_le in H1. apply N.leb_le in H2. lia.
Qed.

Lemma lower_In_minus (s : str) : In (char "-") (lower s) -> In (char "-") s.
Proof.
  unfold lower. intros H. apply in_map_iff in H as [x [E Hx]].
  replace x with (char "-") in Hx; [assumption|].
  revert E. unfold lower_char, char. simpl.
  destruct ((65 <=? x)%N && (x <=? 90)%N) eqn:E1; [|congruence].
  apply andb_true_iff in E1 as [H1 H2].
  apply N.leb_le in H1. apply N.leb_le in H2. lia.
Qed.

Lemma drop_underscores_In (c : N) (s t : str) (prev : N) :
  drop_underscores prev s = Some t -> In c t -> In c s.
Proof.
  revert prev t. induction s as [|x s IH]; intros prev t; cbn [drop_underscores].
  - destruct (N.eqb prev (char "_")); [discriminate|].
    intros E; inversion E; auto.
  - destruct (N.eqb x (char "_")).
    + destruct (is_digit prev); [|discriminate]. intros E H. right. eauto.
    + destruct (N.eqb prev (char "_") && negb (is_digit x)); [discriminate|].
      destruct (drop_underscores x s) as [t'|] eqn:E'; [|discriminate].
      cbn [option_map]. intros E; inversion E; subst. intros [H|H]; [now left|].
      right. eauto.
Qed.

(** ** The built-in [float] *)

Lemma digits_value_nonneg (d : str) : 0 <= digits_value d.
Proof.
  unfold digits_value.
  assert (H : forall acc, 0 <= acc ->
            0 <= fold_left (fun acc c => 10 * acc + Z.of_N (c - 48)) d acc).
  { induction d as [|c d IH]; cbn [fold_left]; intros acc Hacc; [assumption|].
    apply IH. lia. }
  apply H. lia.
Qed.

Lemma read_decimal_nonneg (s : str) (m e : Z) :
  read_decimal s = Some (m, e) -> 0 <= m.
Proof.
  unfold read_decimal.
  destruct (span_digits s) as [ip r].
  destruct (match r with
            | [] => ([], [])
            | c :: r1 => if N.eqb c (char ".") then span_digits r1 else ([], r)
            end) as [fp r'].
  destruct (ip ++ fp) as [|c1 ds]; [discriminate|].
  destruct (read_exponent r'); [|discriminate].
  simpl. intros E; inversion E; subst. apply digits_value_nonneg.
Qed.

Lemma decimal_to_float_sign (m e : Z) :
  0 <= m -> F64.sign_bit (decimal_to_float m e) = false.
Proof.
  intros H. unfold decimal_to_float.
  destruct e; apply of_ratio_sign; try assumption;
    (apply Z.mul_nonneg_nonneg; [assumption|]; apply Z.pow_nonneg; lia).
Qed.

Lemma read_sign_minus (s body : str) :
  read_sign s = (true, body) -> In (char "-") s.
Proof.
  unfold read_sign. destruct s as [|c s]; [discriminate|].
  destruct (N.eqb c (char "-")) eqn:E.
  - apply N.eqb_eq in E. subst. intros _. now left.
  - destruct (N.eqb c (char "+")); discriminate.
Qed.

Lemma float_of_token_sign (s : str) (x : F64.float) :
  float_of_token s = Some x -> ~ In (char "-") s -> F64.sign_bit x = false.
Proof.
  unfold float_of_token.
  destruct (read_sign s) as [neg body] eqn:E.
  destruct neg.
  - intros _ H. exfalso. apply H. eapply read_sign_minus; eassumption.
  - simpl apply_sign.
    destruct (str_eqb body (lit "inf") || str_eqb body (lit "infinity")).
    + intros Hx _; inversion Hx; reflexivity.
    + destruct (str_eqb body (lit "nan")).
      * intros Hx _; inversion Hx; reflexivity.
      * destruct (read_decimal body) as [[m e]|] eqn:Ed; [|discriminate].
        simpl. intros Hx _; inversion Hx; subst.
        apply decimal_to_float_sign. eapply read_decimal_nonneg; eassumption.
Qed.

(** A text without a minus sign is not read as a negative number. *)
Lemma py_float_sign (s : str) (x : F64.float) :
  py_float s = Some x -> ~ In (char "-") s -> F64.sign_bit x = false.
Proof.
  unfold py_float.
  destruct (drop_underscores 0%N _) as [t|] eqn:E; [|discriminate].
  intros Hx Hs. apply (float_of_token_sign t x Hx).
  intros H. apply Hs.
  apply (drop_underscores_In _ _ _ _ E) in H.
  now apply rstrip_In, lstrip_In, lower_In_minus in H.
Qed.

(** What [float] reads is a float of the format. *)
Lemma decimal_to_float_valid (m e : Z) : F64.valid (decimal_to_float m e) = true.
Proof. unfold decimal_to_float. destruct e; apply of_ratio_valid. Qed.

Lemma float_of_token_valid (s : str) (x : F64.float) :
  float_of_token s = Some x -> F64.valid x = true.
Proof.
  unfold float_of_token. destruct (read_sign s) as [neg body].
  destruct (_ || _).
  - intros E; inversion E. now destruct neg.
  - destruct (str_eqb body (lit "nan")).
    + intros E; inversion E. reflexivity.
    + destruct (read_decimal body) as [[m e]|]; [|discriminate].
      simpl. intros E; inversion E.
      unfold apply_sign. destruct neg; [apply valid_opp|];
        apply decimal_to_float_valid.
Qed.

Lemma py_float_valid (s : str) (x : F64.float) :
  py_float s = Some x -> F64.valid x = true.
Proof.
  unfold py_float. destruct (drop_underscores _ _); [|discriminate].
  apply float_of_token_valid.
Qed.

(** ** The review-count parser *)

Lemma float_to_int64_truncate (x : F64.float) (n : Z) :
  spec_truncate x = Some n -> in_int64 n = true -> float_to_int64 x = Ok n.
Proof.
  unfold spec_truncate, float_to_int64.
  destruct (F64.is_finite x); [|discriminate].
  intros E; inversion E; subst. intros H. now rewrite H.
Qed.

Lemma float_to_int64_Ok (x : F64.float) (n : Z) :
  float_to_int64 x = Ok n -> n = F64.trunc x.
Proof.
  unfold float_to_int64.
  destruct (F64.is_finite x); [|discriminate].
  destruct (in_int64 (F64.trunc x)); [|discriminate].
  intros E; now inversion E.
Qed.

(** On a text in which 'K' and 'k' occur at most as the last character,
    [clean_reviews] and the algorithm of the specification read the same
    number. *)
Lemma parse_review_count_agrees (s : str) (n : Z) :
  K_only_last (strip s) = true ->
  spec_parse_review_count s = Some n -> in_int64 n = true ->
  parse_review_count (PyStr s) = Ok n.
Proof.
  unfold spec_parse_review_count, parse_review_count, clean_reviews.
  set (t := strip s). intros HK.
  destruct (ends_with_K t) eqn:EK.
  - destruct (ends_with_K_split t EK) as [rest [c [Et Hc]]].
    assert (Hrest : contains (char "K") rest = false /\ contains (char "k") rest = false).
    { unfold K_only_last in HK. rewrite Et, removelast_last in HK.
      now apply negb_true_iff, orb_false_iff in HK. }
    destruct Hrest as [HK1 HK2].
    assert (Hin : contains (char "K") t || contains (char "k") t = true).
    { rewrite Et, !contains_app. unfold contains at 2 4. cbn [existsb].
      rewrite (N.eqb_sym (char "K") c), (N.eqb_sym (char "k") c).
      destruct (c =? char "K")%N, (c =? char "k")%N; try discriminate;
        rewrite ?orb_true_r; reflexivity. }
    rewrite Hin.
    assert (Hup : remove_char (char "K") (upper t) = upper rest).
    { rewrite Et. unfold upper. rewrite map_app. cbn [map].
      rewrite (upper_char_of_K c Hc).
      unfold remove_char. rewrite filter_app. cbn [filter].
      rewrite N.eqb_refl. cbn [negb]. rewrite app_nil_r.
      apply remove_char_absent. now apply upper_no_K. }
    rewrite Hup, py_float_upper.
    replace (removelast t) with rest by (rewrite Et, removelast_last; reflexivity).
    destruct (py_float rest) as [x|]; cbn [astype_int].
    + apply float_to_int64_truncate.
    + intros E; inversion E; subst. reflexivity.
  - destruct (ends_with_K_false t EK HK) as [H1 H2].
    rewrite H1, H2. cbn [orb].
    destruct (str_in (lower t) no_reviews).
    + intros E; inversion E; subst. reflexivity.
    + destruct (py_float (remove_char (char ",") t)) as [x|]; cbn [astype_int].
      * apply float_to_int64_truncate.
      * intros E; inversion E; subst. reflexivity.
Qed.

(** C1, as amended.  On every text of ASCII, white-space and CJK characters
    in which 'K' and 'k' occur at most as the last character after trimming,
    the parser returns the integer that the algorithm of section 4.1 gives
    (trim; with a K suffix, strip it, read the rest as a float, multiply by
    1000 and truncate; 0 for a no-reviews place holder; otherwise strip the
    commas, read as a float and truncate; 0 when the text cannot be read),
    when that integer fits in 64 bits.  A 'K' or 'k' anywhere else sends the
    text down the K branch as well: every 'K' of the upper-cased text is
    removed before it is read.  The five examples of the specification
    hold. *)
Theorem parse_review_count_amended :
  (forall (s : str) (n : Z),
      forallb in_scope s = true ->
      K_only_last (strip s) = true ->
      spec_parse_review_count s = Some n -> in_int64 n = true ->
      parse_review_count (PyStr s) = Ok n) /\
  (forall s : str,
      contains (char "K") (strip s) || contains (char "k") (strip s) = true ->
      clean_reviews (PyStr s) =
      match py_float (remove_char (char "K") (upper (strip s))) with
      | Some x => PyFloat (F64.mul x (F64.of_Z 1000))
      | None => PyInt 0
      end) /\
  parse_review_count (PyStr (lit "3.4K")) = Ok 3400 /\
  parse_review_count (PyStr (lit "1,234")) = Ok 1234 /\
  parse_review_count (PyStr [wu]) = Ok 0 /\
  parse_review_count (PyStr []) = Ok 0 /\
  parse_review_count (PyStr (lit "abc")) = Ok 0.
Proof.
  split; [|split].
  - intros s n _. apply parse_review_count_agrees.
  - intros s H. unfold clean_reviews. now rewrite H.
  - repeat split; vm_compute; reflexivity.
Qed.

Lemma parse_review_count_amended_witness :
  parse_review_count (PyStr (lit " 12k ")) = Ok 12000.
Proof.
  apply (proj1 parse_review_count_amended (lit " 12k ") 12000);
    vm_compute; reflexivity.
Defined.

(** C1, as stated, fails: the text "1K2" has no K suffix, and the algorithm
    of the specification yields 0 for it (it is not a number); the code finds
    a 'K' in it, removes it and returns 12 * 1000. *)
Lemma parse_review_count_K_inside :
  spec_parse_review_count (lit "1K2") = Some 0 /\
  parse_review_count (PyStr (lit "1K2")) = Ok 12000.
Proof. split; vm_compute; reflexivity. Qed.

(** A text without a minus sign, a Python number, truth value or None, and
    a numpy scalar that is not negative are not parsed as a negative
    integer. *)
Lemma parse_review_count_no_minus :
  forall (v : pyval) (n : Z),
    parse_review_count v = Ok n -> no_minus v = true -> 0 <= n.
Proof.
  intros v n. unfold parse_review_count.
  destruct v as [s|k|x|b| |k|x]; cbn [clean_reviews is_numeric_dtype no_minus].
  + intros H Hs. apply negb_true_iff, contains_false in Hs.
    destruct (contains (char "K") (strip s) || contains (char "k") (strip s)).
    * destruct (py_float _) as [x|] eqn:E; cbn [astype_int] in H.
      -- apply float_to_int64_Ok in H. subst. apply trunc_nonneg.
         apply mul_sign; [|reflexivity].
         apply (py_float_sign _ _ E). intros Hin. apply Hs.
         now apply remove_char_In, upper_In_minus, strip_In in Hin.
      -- vm_compute in H. inversion H. lia.
    * destruct (str_in (lower (strip s)) no_reviews).
      -- vm_compute in H. inversion H. lia.
      -- destruct (py_float _) as [x|] eqn:E; cbn [astype_int] in H.
         ++ apply float_to_int64_Ok in H. subst. apply trunc_nonneg.
            apply (py_float_sign _ _ E). intros Hin. apply Hs.
            now apply remove_char_In, strip_In in Hin.
         ++ vm_compute in H. inversion H. lia.
  + intros H _. vm_compute in H. inversion H. lia.
  + intros H _. vm_compute in H. inversion H. lia.
  + intros H _. vm_compute in H. inversion H. lia.
  + intros H _. vm_compute in H. inversion H. lia.
  + cbn [astype_int]. intros H Hk. inversion H; subst. now apply Z.leb_le.
  + cbn [astype_int]. intros H Hx. apply float_to_int64_Ok in H. subst.
    apply trunc_nonneg. now apply negb_true_iff.
Qed.

(** The parser returns an integer unless the number it has read is an
    infinity, a NaN or lies outside the range of [int64]. *)
Lemma parse_review_count_total :
  forall v : pyval,
  (exists n, parse_review_count v = Ok n) \/
  (exists x, (clean_reviews v = PyFloat x \/ clean_reviews v = NpFloat64 x) /\
             F64.is_finite x && in_int64 (F64.trunc x) = false).
Proof.
  intros v. unfold parse_review_count.
  destruct (clean_reviews v) as [s|k|x|b| |k|x] eqn:E; cbn [astype_int].
  + exfalso. revert E. destruct v as [s0|k|x|b| |k|x];
      cbn [clean_reviews is_numeric_dtype]; try discriminate.
    destruct (_ || _); [destruct (py_float _); discriminate|].
    destruct (str_in _ _); [discriminate|].
    destruct (py_float _); discriminate.
  + assert (Hk : k = 0).
    { revert E. destruct v as [s0|k0|x|b| |k0|x];
        cbn [clean_reviews is_numeric_dtype]; try congruence.
      destruct (_ || _); [destruct (py_float _); congruence|].
      destruct (str_in _ _); [congruence|].
      destruct (py_float _); congruence. }
    subst. left. exists 0. reflexivity.
  + unfold float_to_int64.
    destruct (F64.is_finite x) eqn:Ef; [destruct (in_int64 (F64.trunc x)) eqn:Ei|].
    * left. eexists; reflexivity.
    * right. exists x. split; [now left|now rewrite Ef, Ei].
    * right. exists x. split; [now left|now rewrite Ef].
  + left. eexists; reflexivity.
  + exfalso. revert E. destruct v as [s0|k|x|b| |k|x];
      cbn [clean_reviews is_numeric_dtype]; try discriminate.
    destruct (_ || _); [destruct (py_float _); discriminate|].
    destruct (str_in _ _); [discriminate|].
    destruct (py_float _); discriminate.
  + left. eexists; reflexivity.
  + unfold float_to_int64.
    destruct (F64.is_finite x) eqn:Ef; [destruct (in_int64 (F64.trunc x)) eqn:Ei|].
    * left. eexists; reflexivity.
    * right. exists x. split; [now right|now rewrite Ef, Ei].
    * right. exists x. split; [now right|now rewrite Ef].
Qed.

Lemma float_to_int64_finite (x : F64.float) (n : Z) :
  float_to_int64 x = Ok n -> F64.is_finite x = true.
Proof.
  unfold float_to_int64. destruct (F64.is_finite x); [reflexivity|discriminate].
Qed.

(** The sign of the integer [astype(int)] gives is decided by the number in
    the cell: the integer is at most -1 when the number is, and is not
    negative otherwise. *)
Lemma astype_int_sign (c : pyval) (n : Z) :
  canonical c = true -> astype_int c = Ok n ->
  (at_most_minus_one c = true -> n <= -1) /\
  (at_most_minus_one c = false -> 0 <= n).
Proof.
  assert (Hfloat : forall x, F64.valid x = true -> float_to_int64 x = Ok n ->
            (F64.leb x (F64.of_Z (-1)) = true -> n <= -1) /\
            (F64.leb x (F64.of_Z (-1)) = false -> 0 <= n)).
  { intros x Hv H.
    pose proof (leb_minus_one x Hv (float_to_int64_finite x n H)) as [L R].
    apply float_to_int64_Ok in H. subst n. split.
    - exact L.
    - intros E. destruct (Z_le_gt_dec (F64.trunc x) (-1)) as [Hle|Hgt]; [|lia].
      rewrite (R Hle) in E. discriminate. }
  destruct c as [s|k|x|b| |k|x]; cbn [canonical astype_int at_most_minus_one];
    intros Hc H.
  - discriminate.
  - destruct (in_int64 k); [|discriminate]. inversion H; subst.
    split; intros E; [apply Z.leb_le in E|apply Z.leb_gt in E]; lia.
  - now apply Hfloat.
  - inversion H; subst. split; [discriminate|]. destruct b; lia.
  - discriminate.
  - inversion H; subst.
    split; intros E; [apply Z.leb_le in E|apply Z.leb_gt in E]; lia.
  - now apply Hfloat.
Qed.

(** What [clean_reviews] returns holds a float of the format when its
    argument does: a text is read as one, and so is a thousand times it. *)
Lemma clean_reviews_canonical (v : pyval) :
  canonical v = true -> canonical (clean_reviews v) = true.
Proof.
  destruct v as [s|k|x|b| |k|x]; cbn [clean_reviews is_numeric_dtype canonical];
    trivial.
  intros _.
  destruct (_ || _).
  - destruct (py_float _) as [x|] eqn:E; [|reflexivity].
    cbn [canonical]. apply mul_1000_valid. eapply py_float_valid; eassumption.
  - destruct (str_in _ _); [reflexivity|].
    destruct (py_float _) as [x|] eqn:E; [|reflexivity].
    cbn [canonical]. eapply py_float_valid; eassumption.
Qed.

(** C7, as amended.  The parser returns an integer unless the number it has
    read is an infinity, a NaN or lies outside the range of [int64]; the
    integer it returns is at most -1 when the number [clean_reviews] has
    read from the cell is at most -1, and is not negative in every other
    case.  What decides is the number read, not the characters of the text:
    the texts "-", "1-2", "1e-3", "-0.5", "-0" and "5e-1K" all contain a
    minus sign and are parsed as 0, 0, 0, 0, 0 and 500; the texts "K-5" and
    ",-5" do not begin with one and are parsed as -5000 and -5.  (The float
    a numpy scalar holds is taken to be a float of the format.) *)
Theorem parse_review_count_sign :
  (forall (v : pyval) (n : Z),
      canonical v = true -> parse_review_count v = Ok n ->
      (at_most_minus_one (clean_reviews v) = true -> n <= -1) /\
      (at_most_minus_one (clean_reviews v) = false -> 0 <= n)) /\
  (forall v : pyval,
      (exists n, parse_review_count v = Ok n) \/
      (exists x, (clean_reviews v = PyFloat x \/ clean_reviews v = NpFloat64 x) /\
                 F64.is_finite x && in_int64 (F64.trunc x) = false)) /\
  parse_review_count (PyStr (lit "-")) = Ok 0 /\
  parse_review_count (PyStr (lit "1-2")) = Ok 0 /\
  parse_review_count (PyStr (lit "1e-3")) = Ok 0 /\
  parse_review_count (PyStr (lit "-0.5")) = Ok 0 /\
  parse_review_count (PyStr (lit "-0")) = Ok 0 /\
  parse_review_count (PyStr (lit "5e-1K")) = Ok 500 /\
  parse_review_count (PyStr (lit "K-5")) = Ok (-5000) /\
  parse_review_count (PyStr (lit ",-5")) = Ok (-5).
Proof.
  split; [|split].
  - intros v n Hc H. unfold parse_review_count in H.
    apply astype_int_sign; [|exact H]. now apply clean_reviews_canonical.
  - exact parse_review_count_total.
  - repeat split; vm_compute; reflexivity.
Qed.

Lemma parse_review_count_sign_witness :
  canonical (PyStr (lit "-0.5")) = true /\
  parse_review_count (PyStr (lit "-0.5")) = Ok 0 /\
  (at_most_minus_one (clean_reviews (PyStr (lit "-0.5"))) = true -> 0 <= -1) /\
  (at_most_minus_one (clean_reviews (PyStr (lit "-0.5"))) = false -> 0 <= 0).
Proof.
  split; [reflexivity|]. split; [vm_compute; reflexivity|].
  apply (proj1 parse_review_count_sign (PyStr (lit "-0.5")) 0);
    vm_compute; reflexivity.
Defined.

(** C7, as stated, fails: the text "-5" is read as the integer -5. *)
Lemma parse_review_count_negative :
  parse_review_count (PyStr (lit "-5")) = Ok (-5).
Proof. vm_compute; reflexivity. Qed.

(** C8: a number that Excel stored as a number reaches [clean_reviews] as a
    Python [int] or [float]; it has no dtype, fails the check of line 52 and
    is turned into 0 instead of being passed through. *)
Theorem clean_reviews_python_number :
  parse_review_count (PyInt 341) = Ok 0 /\
  parse_review_count (PyFloat (F64.of_Z 341)) = Ok 0 /\
  parse_review_count (NpInt64 341) = Ok 341.
Proof. repeat split; vm_compute; reflexivity. Qed.

(** ** Loading and cleaning *)

Lemma leb_refl (x : F64.float) : F64.is_nan x = false -> F64.leb x x = true.
Proof.
  unfold F64.leb, SFleb.
  destruct x as [s|s| |s m e]; simpl; try discriminate; intros _;
    try (destruct s; reflexivity).
  destruct s; rewrite Z.compare_refl;
    change (Pos.compare_cont Eq m m) with (Pos.compare m m);
    rewrite Pos.compare_refl; reflexivity.
Qed.

Lemma leb_zero (x : F64.float) :
  F64.is_nan x = false -> F64.sign_bit x = false -> F64.leb F64.zero x = true.
Proof.
  destruct x as [s|s| |s m e]; simpl; try discriminate; intros _ H; subst; reflexivity.
Qed.

Lemma leb_not_nan (x y : F64.float) : F64.leb x y = true -> F64.is_nan y = false.
Proof.
  unfold F64.leb, SFleb.
  destruct x as [s|s| |s m e], y as [s'|s'| |s' m' e']; simpl; try discriminate; reflexivity.
Qed.

(** Each cell of a column that [astype(int)] converts is converted. *)
Lemma astype_int_column_Ok (col : list pyval) (l : list Z) :
  astype_int_column col = Ok l -> Forall2 (fun v n => astype_int v = Ok n) col l.
Proof.
  revert l. induction col as [|v col IH]; intros l; cbn [astype_int_column].
  - intros E; inversion E. constructor.
  - destruct (astype_int v) as [n| |] eqn:Ev;
      destruct (astype_int_column col) as [l'| |]; try discriminate.
    intros E; inversion E; subst. constructor; auto.
Qed.

Lemma combine_counts (df : list ProductRecord) (counts : list Z) :
  Forall2 (fun v n => astype_int v = Ok n)
          (map (fun r => clean_reviews (review_count_raw r)) df) counts ->
  (forall r n, In (r, n) (combine df counts) ->
               In r df /\ parse_review_count (review_count_raw r) = Ok n) /\
  (forall r, In r df ->
             exists n, In (r, n) (combine df counts) /\
                       parse_review_count (review_count_raw r) = Ok n).
Proof.
  revert counts. induction df as [|r0 df IH]; intros counts H; cbn [map] in H.
  - inversion H; subst. split; [intros r n []|intros r []].
  - inversion H as [|v n0 col l Hv Hrest]; subst.
    destruct (IH _ Hrest) as [IH1 IH2]. cbn [combine]. split.
    + intros r n [E|Hin].
      * inversion E; subst. split; [now left|assumption].
      * destruct (IH1 _ _ Hin). split; [now right|assumption].
    + intros r [E|Hin].
      * subst. exists n0. split; [now left|assumption].
      * destruct (IH2 _ Hin) as [n [H1 H2]]. exists n. split; [now right|assumption].
Qed.

Section PipelineFacts.

Variable np_log10 : Z -> F64.float.
Variable to_double : str -> option F64.float.

(** A record of the cleaned data set is the cleaned form of a row of the
    file whose review count was parsed and whose rating is a number. *)
Lemma load_and_clean_data_In (df : list ProductRecord)
    (D : list CleanedRecord) (r : CleanedRecord) :
  load_and_clean_data np_log10 to_double (Some df) = Ok D -> In r D ->
  exists row n,
    In row df /\ parse_review_count (review_count_raw row) = Ok n /\
    r = clean_row np_log10 to_double row n /\
    F64.is_nan (rating r) = false.
Proof.
  unfold load_and_clean_data, bind.
  destruct (astype_int_column _) as [counts| |] eqn:E; try discriminate.
  intros H; inversion H; subst; clear H. unfold dropna.
  intros Hr. apply filter_In in Hr as [Hr Hn].
  apply in_map_iff in Hr as [[row n] [Er Hin]].
  apply astype_int_column_Ok, combine_counts in E. destruct E as [E1 _].
  destruct (E1 _ _ Hin) as [H1 H2].
  exists row, n. repeat split; auto. now apply negb_true_iff.
Qed.

(** A row of the file whose review count is parsed and whose rating is a
    number is kept. *)
Lemma load_and_clean_data_keeps (df : list ProductRecord)
    (D : list CleanedRecord) (row : ProductRecord) :
  load_and_clean_data np_log10 to_double (Some df) = Ok D -> In row df ->
  F64.is_nan (normalize_rating to_double (rating_raw row)) = false ->
  exists n, parse_review_count (review_count_raw row) = Ok n /\
            In (clean_row np_log10 to_double row n) D.
Proof.
  unfold load_and_clean_data, bind.
  destruct (astype_int_column _) as [counts| |] eqn:E; try discriminate.
  intros H; inversion H; subst; clear H. intros Hin Hn.
  apply astype_int_column_Ok, combine_counts in E. destruct E as [_ E2].
  destruct (E2 _ Hin) as [n [H1 H2]].
  exists n. split; [assumption|].
  unfold dropna. apply filter_In. split.
  - apply in_map_iff. exists (row, n). split; [reflexivity|assumption].
  - cbn [rating clean_row]. now rewrite Hn.
Qed.

(** C2.  The four place holders, a missing cell and a text that is not a
    number all get the rating NaN, without an exception; a row whose rating
    is NaN is dropped: every record of the cleaned data set has the rating
    computed from its row, and that rating is a number. *)
Theorem rating_defined :
  (forall s, In s no_rating -> normalize_rating to_double (PyStr s) = F64.nan) /\
  normalize_rating to_double (PyFloat F64.nan) = F64.nan /\
  normalize_rating to_double PyNone = F64.nan /\
  (forall s, to_double s = None -> normalize_rating to_double (PyStr s) = F64.nan) /\
  (forall file D r,
      load_and_clean_data np_log10 to_double file = Ok D -> In r D ->
      rating r = normalize_rating to_double (rating_raw (source r)) /\
      F64.is_nan (rating r) = false).
Proof.
  repeat split.
  - intros s H. cbn [no_rating In] in H.
    destruct H as [H|[H|[H|[H|[]]]]]; subst; reflexivity.
  - intros s H. unfold normalize_rating, replace_no_rating.
    destruct (str_in s no_rating); cbn [to_numeric_coerce]; [reflexivity|].
    now rewrite H.
  - destruct file as [df|]; [|cbn in H; inversion H; subst; contradiction].
    destruct (load_and_clean_data_In df D r H H0) as [row [n [_ [_ [E _]]]]].
    subst. reflexivity.
  - destruct file as [df|]; [|cbn in H; inversion H; subst; contradiction].
    destruct (load_and_clean_data_In df D r H H0) as [row [n [_ [_ [_ E]]]]].
    assumption.
Qed.

(** C6, as amended.  In every record of the cleaned data set the two derived
    columns are the logarithm of the review count plus one and the square
    root of the review count plus ten; when the review count is not negative
    (and below the largest [int64], so that adding one does not wrap around)
    the former is defined and at least 0 and the latter is positive. *)
Theorem derived_columns (file : option (list ProductRecord))
    (D : list CleanedRecord) (r : CleanedRecord) :
  log10_sign np_log10 ->
  load_and_clean_data np_log10 to_double file = Ok D -> In r D ->
  review_count_log10 r = np_log10 (wrap64 (review_count r + 1)) /\
  bubble_size r = F64.add (F64.sqrt (F64.of_Z (review_count r))) (F64.of_Z 10) /\
  (0 <= review_count r < int64_max ->
   F64.is_nan (review_count_log10 r) = false /\
   F64.leb F64.zero (review_count_log10 r) = true /\
   F64.ltb F64.zero (bubble_size r) = true).
Proof.
  intros Hlog H Hr.
  destruct file as [df|]; [|cbn in H; inversion H; subst; contradiction].
  destruct (load_and_clean_data_In df D r H Hr) as [row [n [_ [_ [E _]]]]].
  subst r. cbn [review_count_log10 bubble_size review_count clean_row].
  split; [reflexivity|]. split; [reflexivity|]. intros Hn.
  assert (Hl : F64.leb F64.zero (np_log10 (wrap64 (n + 1))) = true).
  { apply Hlog. unfold wrap64, int64_min, int64_max in *.
    rewrite Z.mod_small; lia. }
  split; [exact (leb_not_nan _ _ Hl)|]. split; [exact Hl|].
  destruct (of_Z_sign n ltac:(lia)) as [H1 H2].
    destruct (sqrt_sign _ H1 H2) as [H3 H4].
    change (F64.of_Z 10) with (S754_finite false 5629499534213120 (-49)).
    apply add_pos; [assumption|assumption|].
    vm_compute. discriminate.
Qed.

(** C10.  A value that is neither a text nor numeric for the dtype check is
    parsed as 0; so are NaN and None; and a row whose review count is such a
    value stays in the cleaned data set, with the review count 0, when its
    rating is a number. *)
Theorem missing_review_count :
  (forall v, (forall s, v <> PyStr s) -> is_numeric_dtype v = false ->
             clean_reviews v = PyInt 0 /\ parse_review_count v = Ok 0) /\
  parse_review_count (PyFloat F64.nan) = Ok 0 /\
  parse_review_count PyNone = Ok 0 /\
  (forall df D row,
      load_and_clean_data np_log10 to_double (Some df) = Ok D -> In row df ->
      (forall s, review_count_raw row <> PyStr s) ->
      is_numeric_dtype (review_count_raw row) = false ->
      F64.is_nan (normalize_rating to_double (rating_raw row)) = false ->
      exists r, In r D /\ source r = row /\ review_count r = 0).
Proof.
  assert (H0 : forall v, (forall s, v <> PyStr s) -> is_numeric_dtype v = false ->
             clean_reviews v = PyInt 0 /\ parse_review_count v = Ok 0).
  { intros v Hs Hn. unfold parse_review_count.
    destruct v as [s|k|x|b| |k|x];
      [exfalso; apply (Hs s); reflexivity|..];
      cbn [clean_reviews]; rewrite Hn; split; reflexivity. }
  split; [exact H0|].
  split; [reflexivity|]. split; [reflexivity|].
  intros df D row HD Hin Hs Hn Hr.
  destruct (load_and_clean_data_keeps df D row HD Hin Hr) as [n [Hp HinD]].
  destruct (H0 _ Hs Hn) as [_ Hp0]. rewrite Hp0 in Hp. inversion Hp; subst.
  eexists. split; [eassumption|]. split; reflexivity.
Qed.

End PipelineFacts.

Lemma ilog10_nonneg (fuel : nat) (n : Z) : 0 <= ilog10 fuel n.
Proof.
  revert n. induction fuel as [|fuel IH]; intros n; cbn [ilog10]; [lia|].
  destruct (n <? 10); [lia|]. specialize (IH (n / 10)). lia.
Qed.

Lemma floor_log10_sign : log10_sign floor_log10.
Proof.
  intros n Hn. destruct n as [|p|p]; try lia. unfold floor_log10.
  destruct (of_Z_sign (ilog10 64 (Z.pos p)) (ilog10_nonneg _ _)).
  now apply leb_zero.
Qed.

Lemma derived_columns_witness :
  F64.is_nan (review_count_log10 (clean_row floor_log10 py_float row_A 100)) = false /\
  F64.leb F64.zero (review_count_log10 (clean_row floor_log10 py_float row_A 100)) = true /\
  F64.ltb F64.zero (bubble_size (clean_row floor_log10 py_float row_A 100)) = true.
Proof.
  apply (derived_columns floor_log10 py_float (Some scenario)
           [clean_row floor_log10 py_float row_A 100;
            clean_row floor_log10 py_float row_C 2000]
           (clean_row floor_log10 py_float row_A 100)).
  - exact floor_log10_sign.
  - vm_compute; reflexivity.
  - left; reflexivity.
  - vm_compute. split; [discriminate | reflexivity].
Defined.

(** C6, as stated, fails on the file whose two rows have the review counts
    "-5" and "2K".  (With "2K" in it the column is not a column of numbers,
    so [pd.read_excel] hands both cells over as texts.)  Both rows are kept;
    the first has the review count -5, and its bubble size is the square
    root of a negative number plus ten: NaN, which is not positive.  (The
    bubble size depends on neither of the two library routines, for which
    the coarse logarithm and [py_float] stand here.) *)
Lemma derived_columns_negative_count :
  match load_and_clean_data floor_log10 py_float (Some [row_minus_5; row_C]) with
  | Ok [r; r'] =>
      source r = row_minus_5 /\
      review_count r = -5 /\ bubble_size r = F64.nan /\
      F64.ltb F64.zero (bubble_size r) = false /\
      review_count r' = 2000
  | _ => False
  end.
Proof. vm_compute. repeat split; reflexivity. Qed.

Lemma rating_defined_witness :
  normalize_rating py_float (PyStr [wu; ping; fen]) = F64.nan /\
  F64.is_nan (rating (clean_row floor_log10 py_float row_A 100)) = false.
Proof.
  split.
  - apply (proj1 (rating_defined floor_log10 py_float)).
    left; reflexivity.
  - apply (proj2 (proj2 (proj2 (proj2 (rating_defined floor_log10 py_float))))
             (Some scenario)
             [clean_row floor_log10 py_float row_A 100;
              clean_row floor_log10 py_float row_C 2000]).
    + vm_compute; reflexivity.
    + left; reflexivity.
Defined.

Lemma missing_review_count_witness :
  exists r,
    In r [clean_row floor_log10 py_float row_missing_count 0] /\
    source r = row_missing_count /\ review_count r = 0.
Proof.
  apply (proj2 (proj2 (proj2 (missing_review_count floor_log10 py_float)))
           [row_missing_count]).
  - vm_compute; reflexivity.
  - left; reflexivity.
  - discriminate.
  - reflexivity.
  - vm_compute; reflexivity.
Defined.

(** ** The filter *)

Lemma df_filtered_In (D : list CleanedRecord) (r l : F64.float) (x : CleanedRecord) :
  In x (df_filtered D r l) <->
  In x D /\ F64.leb r (rating x) = true /\ F64.leb l (review_count_log10 x) = true.
Proof.
  unfold df_filtered. rewrite filter_In, andb_true_iff. reflexivity.
Qed.

(** C3.  The filter returns the records of the data set whose rating is at
    least [r_min] and whose logarithm of the review count is at least
    [l_min], in their order and each as often as it occurs; a record that
    sits exactly on both thresholds is kept; when no record matches, the
    result is the empty list; and the result depends on the three inputs
    only. *)
Theorem df_filtered_spec (D : list CleanedRecord) (r_min l_min : F64.float) :
  (forall x, In x (df_filtered D r_min l_min) <->
             In x D /\ F64.leb r_min (rating x) = true /\
             F64.leb l_min (review_count_log10 x) = true) /\
  (forall D1 D2, D = D1 ++ D2 ->
     df_filtered D r_min l_min = df_filtered D1 r_min l_min ++ df_filtered D2 r_min l_min) /\
  (forall x, df_filtered [x] r_min l_min =
             if F64.leb r_min (rating x) && F64.leb l_min (review_count_log10 x)
             then [x] else []) /\
  (forall x, In x D -> rating x = r_min -> review_count_log10 x = l_min ->
             F64.is_nan r_min = false -> F64.is_nan l_min = false ->
             In x (df_filtered D r_min l_min)) /\
  ((forall x, In x D -> F64.leb r_min (rating x) && F64.leb l_min (review_count_log10 x) = false) ->
   df_filtered D r_min l_min = []) /\
  (forall D' r' l', D' = D -> r' = r_min -> l' = l_min ->
     df_filtered D' r' l' = df_filtered D r_min l_min).
Proof.
  split; [apply df_filtered_In|].
  split; [intros D1 D2 E; subst; apply filter_app|].
  split; [reflexivity|].
  split; [|split].
  - intros x Hx Hr Hl Hnr Hnl. apply df_filtered_In.
    split; [assumption|]. rewrite Hr, Hl. split; now apply leb_refl.
  - intros H. unfold df_filtered.
    induction D as [|x D' IH]; [reflexivity|]. cbn [filter].
    rewrite (H x (or_introl eq_refl)). apply IH.
    intros y Hy. apply H. now right.
  - intros D' r' l' -> -> ->. reflexivity.
Qed.

Lemma df_filtered_spec_witness :
  In (clean_row floor_log10 py_float row_A 100)
     (df_filtered [clean_row floor_log10 py_float row_A 100]
        (decimal_to_float 45 (-1)) (F64.of_Z 2)).
Proof.
  apply (df_filtered_spec [clean_row floor_log10 py_float row_A 100]
           (decimal_to_float 45 (-1)) (F64.of_Z 2));
    try (vm_compute; reflexivity).
  left; reflexivity.
Defined.

(** C9.  Raising either threshold never makes the filtered set larger. *)
Theorem df_filtered_monotone (D : list CleanedRecord)
    (r_min l_min r_min' l_min' : F64.float) :
  F64.leb r_min r_min' = true -> F64.leb l_min l_min' = true ->
  (List.length (df_filtered D r_min' l_min') <= List.length (df_filtered D r_min l_min))%nat.
Proof.
  intros Hr Hl. unfold df_filtered.
  induction D as [|x D IH]; cbn [filter]; [apply le_n|].
  destruct (F64.leb r_min' (rating x) && F64.leb l_min' (review_count_log10 x)) eqn:E.
  - apply andb_true_iff in E as [E1 E2].
    rewrite (leb_trans _ _ _ Hr E1), (leb_trans _ _ _ Hl E2).
    cbn [andb List.length]. lia.
  - destruct (F64.leb r_min (rating x) && F64.leb l_min (review_count_log10 x));
      cbn [List.length]; lia.
Qed.

Lemma df_filtered_monotone_witness :
  (List.length (df_filtered [clean_row floor_log10 py_float row_A 100;
                             clean_row floor_log10 py_float row_C 2000]
                  (decimal_to_float 45 (-1)) (F64.of_Z 3))
   <= List.length (df_filtered [clean_row floor_log10 py_float row_A 100;
                                clean_row floor_log10 py_float row_C 2000]
                     (decimal_to_float 40 (-1)) F64.zero))%nat.
Proof.
  apply df_filtered_monotone; vm_compute; reflexivity.
Defined.

(** ** The key figures *)

Lemma render_nonempty (x : CleanedRecord) (D : list CleanedRecord)
    (r l : F64.float) :
  exists k, render (x :: D) r l = Ok (Rendered k (df_filtered (x :: D) r l)) /\
            shown k = List.length (df_filtered (x :: D) r l) /\
            avg_rating_filtered k =
              match df_filtered (x :: D) r l with
              | [] => F64.zero
              | _ :: _ => mean (map rating (df_filtered (x :: D) r l))
              end /\
            max_reviews k =
              match df_filtered (x :: D) r l with
              | [] => None
              | _ :: _ => Some (max_int (map review_count (df_filtered (x :: D) r l)))
              end.
Proof.
  unfold render. set (f := df_filtered (x :: D) r l).
  cbn [List.length]. rewrite Nat2Z.inj_succ.
  destruct (Z.succ (Z.of_nat (List.length D))) as [|d|d] eqn:E; try lia.
  cbn [true_div bind]. eexists. split; [reflexivity|]. repeat split.
Qed.

(** C5.  The key figures never raise.  With an empty data set the script
    stops before any figure is computed: the division of line 128, which
    would raise on a divisor 0, is not reached; with a data set that is not
    empty and an empty selection, the average rating is 0 and the largest
    review count is the marker "N/A". *)
Theorem metrics_degenerate :
  (forall r l, render [] r l = Ok Stopped) /\
  (forall n, true_div n 0 = Raises) /\
  (forall D r l, exists p, render D r l = Ok p) /\
  (forall D r l, D <> [] -> df_filtered D r l = [] ->
     exists k, render D r l = Ok (Rendered k []) /\
               shown k = 0%nat /\
               avg_rating_filtered k = F64.zero /\
               max_reviews k = None).
Proof.
  split; [reflexivity|]. split; [reflexivity|]. split.
  - intros [|x D] r l; [eexists; reflexivity|].
    destruct (render_nonempty x D r l) as [k [H _]]. eexists; eassumption.
  - intros [|x D] r l HD Hf; [congruence|].
    destruct (render_nonempty x D r l) as [k [H [H1 [H2 H3]]]].
    rewrite Hf in *. exists k. repeat split; assumption.
Qed.

Lemma metrics_degenerate_witness :
  exists k, render [clean_row floor_log10 py_float row_A 100]
              (F64.of_Z 5) F64.zero = Ok (Rendered k []) /\
            shown k = 0%nat /\
            avg_rating_filtered k = F64.zero /\
            max_reviews k = None.
Proof.
  apply (proj2 (proj2 (proj2 metrics_degenerate))).
  - discriminate.
  - vm_compute; reflexivity.
Defined.

(** ** The scenario of the specification *)

Lemma scenario_counts :
  astype_int_column (map (fun r => clean_reviews (review_count_raw r)) scenario)
  = Ok [100; 50; 2000].
Proof. vm_compute; reflexivity. Qed.

(** C4.  Cleaning the three rows of the scenario gives the two records of A
    and C (B, which has no rating, is dropped); with the thresholds 4.0 and
    0 the filter keeps both; the average rating shown is 4.25 and the largest
    review count is 2000. *)
Theorem end_to_end (np_log10 : Z -> F64.float) (to_double : str -> option F64.float) :
  log10_sign np_log10 ->
  let a := clean_row np_log10 to_double row_A 100 in
  let c := clean_row np_log10 to_double row_C 2000 in
  load_and_clean_data np_log10 to_double (Some scenario) = Ok [a; c] /\
  df_filtered [a; c] (decimal_to_float 40 (-1)) F64.zero = [a; c] /\
  exists k,
    render [a; c] (decimal_to_float 40 (-1)) F64.zero = Ok (Rendered k [a; c]) /\
    shown k = 2%nat /\
    avg_rating_filtered k = decimal_to_float 425 (-2) /\
    max_reviews k = Some 2000.
Proof.
  intros Hlog a c.
  assert (Hload : load_and_clean_data np_log10 to_double (Some scenario) = Ok [a; c]).
  { unfold load_and_clean_data. rewrite scenario_counts. reflexivity. }
  assert (Hf : df_filtered [a; c] (decimal_to_float 40 (-1)) F64.zero = [a; c]).
  { unfold df_filtered. cbn [filter].
    change (review_count_log10 a) with (np_log10 101).
    change (review_count_log10 c) with (np_log10 2001).
    rewrite !Hlog by lia.
    replace (F64.leb (decimal_to_float 40 (-1)) (rating a)) with true
      by (vm_compute; reflexivity).
    replace (F64.leb (decimal_to_float 40 (-1)) (rating c)) with true
      by (vm_compute; reflexivity).
    reflexivity. }
  split; [exact Hload|]. split; [exact Hf|].
  destruct (render_nonempty a [c] (decimal_to_float 40 (-1)) F64.zero)
    as [k [H [H1 [H2 H3]]]].
  rewrite Hf in *. exists k. split; [assumption|].
  split; [assumption|]. split.
  - rewrite H2. vm_compute; reflexivity.
  - rewrite H3. reflexivity.
Qed.

Lemma end_to_end_witness :
  load_and_clean_data floor_log10 py_float (Some scenario)
  = Ok [clean_row floor_log10 py_float row_A 100;
        clean_row floor_log10 py_float row_C 2000].
Proof.
  apply (end_to_end floor_log10 py_float floor_log10_sign).
Defined.

(** * Further facts *)

(** ** The order of binary64 numbers *)

Lemma ltb_leb (a b : F64.float) : F64.ltb a b = true -> F64.leb a b = true.
Proof.
  unfold F64.ltb, F64.leb, SFltb, SFleb.
  destruct (SFcompare a b) as [[ | | ]|]; intros H; congruence.
Qed.

(** Two numbers can always be compared, one way or the other. *)
Lemma ltb_false_leb (a b : F64.float) :
  F64.is_nan a = false -> F64.is_nan b = false ->
  F64.ltb a b = false -> F64.leb b a = true.
Proof.
  unfold F64.ltb, F64.leb, SFltb, SFleb.
  destruct a as [sa|sa| |sa ma ea], b as [sb|sb| |sb mb eb]; simpl;
    try discriminate; intros _ _;
    try (destruct sa; simpl; try discriminate; try reflexivity);
    try (destruct sb; simpl; try discriminate; try reflexivity).
  all: change (Pos.compare_cont Eq) with Pos.compare.
  all: rewrite (Z.compare_antisym ea eb);
       destruct (Z.compare_spec ea eb); simpl; try discriminate; try reflexivity.
  all: rewrite (Pos.compare_antisym ma mb);
       destruct (Pos.compare_spec ma mb); simpl; try discriminate; try reflexivity.
Qed.

Lemma leb_nan_l (a b : F64.float) : F64.leb a b = true -> F64.is_nan a = false.
Proof.
  unfold F64.leb, SFleb.
  destruct a as [s|s| |s m e]; simpl; try discriminate; reflexivity.
Qed.

(** ** Minimum and maximum of a column *)

Section Extremum.

Variable pick : F64.float -> F64.float -> F64.float.
Variable below : F64.float -> F64.float -> bool.

Hypothesis pick_cases : forall a b, pick a b = a \/ pick a b = b.
Hypothesis pick_nan : forall a b,
  F64.is_nan a = false -> F64.is_nan b = false -> F64.is_nan (pick a b) = false.
Hypothesis pick_l : forall a b,
  F64.is_nan a = false -> F64.is_nan b = false -> below (pick a b) a = true.
Hypothesis pick_r : forall a b,
  F64.is_nan a = false -> F64.is_nan b = false -> below (pick a b) b = true.
Hypothesis below_trans : forall a b c,
  below a b = true -> below b c = true -> below a c = true.

Lemma fold_pick (l : list F64.float) (x : F64.float) :
  F64.is_nan x = false -> Forall (fun y => F64.is_nan y = false) l ->
  F64.is_nan (fold_left pick l x) = false /\
  In (fold_left pick l x) (x :: l) /\
  below (fold_left pick l x) x = true /\
  (forall y, In y l -> below (fold_left pick l x) y = true).
Proof.
  revert x. induction l as [|a l IH]; intros x Hx Hl; cbn [fold_left].
  - split; [assumption|]. split; [now left|]. split; [|intros y []].
    pose proof (pick_l x x Hx Hx) as P.
    destruct (pick_cases x x) as [E|E]; rewrite E in P; exact P.
  - inversion Hl as [|a' l' Ha Hl']; subst.
    destruct (IH (pick x a) (pick_nan _ _ Hx Ha) Hl') as [H1 [H2 [H3 H4]]].
    split; [assumption|]. split; [|split].
    + destruct H2 as [H2|H2]; [|now right; right].
      rewrite <- H2. destruct (pick_cases x a) as [E|E]; rewrite E; [now left|now right; left].
    + eapply below_trans; [exact H3|]. now apply pick_l.
    + intros y [Hy|Hy]; [subst|now apply H4].
      eapply below_trans; [exact H3|]. now apply pick_r.
Qed.

End Extremum.

Lemma series_min_spec (l : list F64.float) (x : F64.float) :
  In x l -> F64.is_nan x = false ->
  F64.is_nan (series_min l) = false /\ In (series_min l) l /\
  F64.leb (series_min l) x = true.
Proof.
  intros Hin Hx. unfold series_min.
  assert (Hf : In x (filter (fun y => negb (F64.is_nan y)) l)).
  { apply filter_In. split; [assumption|]. now rewrite Hx. }
  assert (Hall : Forall (fun y => F64.is_nan y = false)
                        (filter (fun y => negb (F64.is_nan y)) l)).
  { apply Forall_forall. intros y Hy. apply filter_In in Hy as [_ Hy].
    now apply negb_true_iff. }
  assert (Hsub : forall y, In y (filter (fun y => negb (F64.is_nan y)) l) -> In y l).
  { intros y Hy. now apply filter_In in Hy. }
  destruct (filter (fun y => negb (F64.is_nan y)) l) as [|a l']; [contradiction|].
  inversion Hall as [|a' l'' Ha Hl']; subst.
  destruct (fold_pick (fun acc y => if F64.ltb y acc then y else acc)
              (fun a b => F64.leb a b)) with (l := l') (x := a)
    as [H1 [H2 [H3 H4]]]; try assumption.
  - intros u v. destruct (F64.ltb v u); auto.
  - intros u v Hu Hv. destruct (F64.ltb v u); assumption.
  - intros u v Hu Hv. destruct (F64.ltb v u) eqn:E;
      [now apply ltb_leb | now apply leb_refl].
  - intros u v Hu Hv. destruct (F64.ltb v u) eqn:E;
      [now apply leb_refl | now apply ltb_false_leb].
  - intros u v w. apply leb_trans.
  - split; [assumption|]. split; [now apply Hsub|].
    destruct Hf as [Hf|Hf]; [now subst|now apply H4].
Qed.

Lemma series_max_spec (l : list F64.float) (x : F64.float) :
  In x l -> F64.is_nan x = false ->
  F64.is_nan (series_max l) = false /\ In (series_max l) l /\
  F64.leb x (series_max l) = true.
Proof.
  intros Hin Hx. unfold series_max.
  assert (Hf : In x (filter (fun y => negb (F64.is_nan y)) l)).
  { apply filter_In. split; [assumption|]. now rewrite Hx. }
  assert (Hall : Forall (fun y => F64.is_nan y = false)
                        (filter (fun y => negb (F64.is_nan y)) l)).
  { apply Forall_forall. intros y Hy. apply filter_In in Hy as [_ Hy].
    now apply negb_true_iff. }
  assert (Hsub : forall y, In y (filter (fun y => negb (F64.is_nan y)) l) -> In y l).
  { intros y Hy. now apply filter_In in Hy. }
  destruct (filter (fun y => negb (F64.is_nan y)) l) as [|a l']; [contradiction|].
  inversion Hall as [|a' l'' Ha Hl']; subst.
  destruct (fold_pick (fun acc y => if F64.ltb acc y then y else acc)
              (fun a b => F64.leb b a)) with (l := l') (x := a)
    as [H1 [H2 [H3 H4]]]; try assumption.
  - intros u v. destruct (F64.ltb u v); auto.
  - intros u v Hu Hv. destruct (F64.ltb u v); assumption.
  - intros u v Hu Hv. destruct (F64.ltb u v) eqn:E;
      [now apply ltb_leb | now apply leb_refl].
  - intros u v Hu Hv. destruct (F64.ltb u v) eqn:E;
      [now apply leb_refl | now apply ltb_false_leb].
  - intros u v w H H'. eapply leb_trans; eassumption.
  - split; [assumption|]. split; [now apply Hsub|].
    destruct Hf as [Hf|Hf]; [now subst|now apply H4].
Qed.

Lemma series_max_all_nan (l : list F64.float) :
  (forall x, In x l -> F64.is_nan x = true) -> series_max l = F64.nan.
Proof.
  intros H. unfold series_max.
  replace (filter (fun x => negb (F64.is_nan x)) l) with (@nil F64.float);
    [reflexivity|].
  symmetry. induction l as [|a l IH]; [reflexivity|]. cbn [filter].
  rewrite (H a (or_introl eq_refl)). cbn [negb]. apply IH.
  intros x Hx. apply H. now right.
Qed.

(** ** The sliders *)

Lemma rating_extremes (D : list CleanedRecord) (x : CleanedRecord) :
  In x D -> F64.is_nan (rating x) = false ->
  F64.leb (min_rating_val D) (rating x) = true /\
  F64.leb (rating x) (max_rating_val D) = true /\
  In (min_rating_val D) (map rating D) /\
  In (max_rating_val D) (map rating D).
Proof.
  intros Hin Hx. unfold min_rating_val, max_rating_val.
  assert (Hm : In (rating x) (map rating D)) by now apply in_map.
  destruct (series_min_spec _ _ Hm Hx) as [N1 [I1 L1]].
  destruct (series_max_spec _ _ Hm Hx) as [N2 [I2 L2]].
  repeat split; assumption.
Qed.

(** X1.  The range of the rating slider spans the ratings: every rating of
    the data set lies between the two ends, both ends are ratings of the
    data set, and the value the slider starts at, the lower end, lies in the
    range. *)
Theorem rating_slider_range (D : list CleanedRecord) (x : CleanedRecord) :
  In x D -> F64.is_nan (rating x) = false ->
  F64.leb (min_value (rating_slider D)) (rating x) = true /\
  F64.leb (rating x) (max_value (rating_slider D)) = true /\
  In (min_value (rating_slider D)) (map rating D) /\
  In (max_value (rating_slider D)) (map rating D) /\
  F64.leb (min_value (rating_slider D)) (value (rating_slider D)) = true /\
  F64.leb (value (rating_slider D)) (max_value (rating_slider D)) = true.
Proof.
  intros Hin Hx. cbn [rating_slider min_value max_value value].
  destruct (rating_extremes D x Hin Hx) as [L1 [L2 [I1 I2]]].
  repeat split; try assumption.
  - apply leb_refl. eapply leb_nan_l. eassumption.
  - eapply leb_trans; eassumption.
Qed.

Lemma rating_slider_range_witness :
  F64.leb (min_value (rating_slider
            [clean_row floor_log10 py_float row_A 100;
             clean_row floor_log10 py_float row_C 2000]))
          (rating (clean_row floor_log10 py_float row_A 100)) = true.
Proof.
  apply (rating_slider_range
           [clean_row floor_log10 py_float row_A 100;
            clean_row floor_log10 py_float row_C 2000]
           (clean_row floor_log10 py_float row_A 100)).
  - left; reflexivity.
  - vm_compute; reflexivity.
Defined.

(** X2.  The upper end of the review slider is NaN when every logarithm of
    the data set is NaN, and otherwise it is at least 1 and at least every
    logarithm of the data set; the value the slider starts at, 1.0, then
    lies between the lower end 0 and the upper end. *)
Theorem reviews_slider_range (D : list CleanedRecord) :
  ((forall x, In x D -> F64.is_nan (review_count_log10 x) = true) ->
   max_value (reviews_slider D) = F64.nan) /\
  (forall x, In x D -> F64.is_nan (review_count_log10 x) = false ->
     F64.leb (review_count_log10 x) (max_value (reviews_slider D)) = true /\
     F64.leb (min_value (reviews_slider D)) (value (reviews_slider D)) = true /\
     F64.leb (value (reviews_slider D)) (max_value (reviews_slider D)) = true).
Proof.
  cbn [reviews_slider min_value max_value value]. unfold max_log_val. split.
  - intros H. rewrite series_max_all_nan; [reflexivity|].
    intros y Hy. apply in_map_iff in Hy as [x [E Hx]]. subst. now apply H.
  - intros x Hin Hx.
    assert (Hm : In (review_count_log10 x) (map review_count_log10 D))
      by now apply in_map.
    destruct (series_max_spec _ _ Hm Hx) as [N [_ L]].
    destruct (F64.ltb (series_max (map review_count_log10 D)) (F64.of_Z 1)) eqn:E.
    + split; [|split; reflexivity].
      eapply leb_trans; [exact L|]. now apply ltb_leb.
    + split; [assumption|]. split; [reflexivity|].
      apply ltb_false_leb; [assumption|reflexivity|assumption].
Qed.

Lemma reviews_slider_range_witness :
  F64.leb (value (reviews_slider [clean_row floor_log10 py_float row_A 100]))
          (max_value (reviews_slider [clean_row floor_log10 py_float row_A 100]))
  = true.
Proof.
  apply (proj2 (reviews_slider_range [clean_row floor_log10 py_float row_A 100])
           (clean_row floor_log10 py_float row_A 100)).
  - left; reflexivity.
  - vm_compute; reflexivity.
Defined.

(** ** More on the filter *)

(** X3.  Filtering what was filtered changes nothing when the thresholds
    are the same or lower, and two filters can be applied in either order. *)
Theorem df_filtered_again (D : list CleanedRecord) (r l r' l' : F64.float) :
  (F64.leb r' r = true -> F64.leb l' l = true ->
   df_filtered (df_filtered D r l) r' l' = df_filtered D r l) /\
  df_filtered (df_filtered D r l) r' l' = df_filtered (df_filtered D r' l') r l.
Proof.
  split.
  - intros Hr Hl. unfold df_filtered.
    induction D as [|x D IH]; [reflexivity|]. cbn [filter].
    destruct (F64.leb r (rating x) && F64.leb l (review_count_log10 x)) eqn:E;
      [|exact IH].
    cbn [filter]. apply andb_true_iff in E as [E1 E2].
    rewrite (leb_trans _ _ _ Hr E1), (leb_trans _ _ _ Hl E2). cbn [andb].
    now rewrite IH.
  - unfold df_filtered. induction D as [|x D IH]; [reflexivity|]. cbn [filter].
    destruct (F64.leb r (rating x) && F64.leb l (review_count_log10 x)) eqn:E;
      destruct (F64.leb r' (rating x) && F64.leb l' (review_count_log10 x)) eqn:E';
      cbn [filter]; rewrite ?E, ?E'; now rewrite IH.
Qed.

Lemma df_filtered_again_witness :
  df_filtered (df_filtered [clean_row floor_log10 py_float row_A 100;
                            clean_row floor_log10 py_float row_C 2000]
                 (decimal_to_float 42 (-1)) (F64.of_Z 1))
              (decimal_to_float 40 (-1)) F64.zero
  = df_filtered [clean_row floor_log10 py_float row_A 100;
                 clean_row floor_log10 py_float row_C 2000]
      (decimal_to_float 42 (-1)) (F64.of_Z 1).
Proof.
  apply (proj1 (df_filtered_again _ _ _ _ _)); vm_compute; reflexivity.
Defined.

(** X4.  A record whose rating or whose logarithm is NaN is never shown,
    whatever the thresholds; and a threshold that is NaN shows nothing. *)
Theorem df_filtered_nan (D : list CleanedRecord) (r l : F64.float) :
  (forall x, In x (df_filtered D r l) ->
     F64.is_nan (rating x) = false /\ F64.is_nan (review_count_log10 x) = false) /\
  (F64.is_nan r = true \/ F64.is_nan l = true -> df_filtered D r l = []).
Proof.
  split.
  - intros x Hx. apply df_filtered_In in Hx as [_ [H1 H2]].
    split; eapply leb_not_nan; eassumption.
  - intros H. unfold df_filtered.
    induction D as [|x D IH]; [reflexivity|]. cbn [filter].
    replace (F64.leb r (rating x) && F64.leb l (review_count_log10 x)) with false;
      [exact IH|].
    symmetry. apply andb_false_iff.
    destruct H as [H|H]; [left|right];
      match goal with |- F64.leb ?a ?b = false =>
        destruct (F64.leb a b) eqn:E; [apply leb_nan_l in E; congruence|reflexivity]
      end.
Qed.

Lemma df_filtered_nan_witness :
  df_filtered [clean_row floor_log10 py_float row_A 100] F64.nan F64.zero = [].
Proof.
  apply (proj2 (df_filtered_nan _ _ _)). left; reflexivity.
Defined.

(** X5.  With the rating slider where it starts, at the smallest rating, no
    record is held back for its rating: the filter keeps exactly the records
    whose logarithm reaches the other threshold. *)
Theorem df_filtered_default_rating (D : list CleanedRecord) (l : F64.float) :
  (forall x, In x D -> F64.is_nan (rating x) = false) ->
  df_filtered D (value (rating_slider D)) l
  = filter (fun x => F64.leb l (review_count_log10 x)) D.
Proof.
  intros H. unfold df_filtered. apply filter_ext_in. intros x Hx.
  destruct (rating_extremes D x Hx (H x Hx)) as [H1 _].
  cbn [rating_slider value]. now rewrite H1.
Qed.

Lemma df_filtered_default_rating_witness :
  df_filtered [clean_row floor_log10 py_float row_A 100;
               clean_row floor_log10 py_float row_C 2000]
    (value (rating_slider [clean_row floor_log10 py_float row_A 100;
                           clean_row floor_log10 py_float row_C 2000]))
    (F64.of_Z 3)
  = filter (fun x => F64.leb (F64.of_Z 3) (review_count_log10 x))
      [clean_row floor_log10 py_float row_A 100;
       clean_row floor_log10 py_float row_C 2000].
Proof.
  apply df_filtered_default_rating.
  intros x [H|[H|[]]]; subst; vm_compute; reflexivity.
Defined.

(** ** More on the key figures *)

Lemma fold_max_spec (l : list Z) (x : Z) :
  In (fold_left Z.max l x) (x :: l) /\
  x <= fold_left Z.max l x /\
  (forall y, In y l -> y <= fold_left Z.max l x).
Proof.
  revert x. induction l as [|a l IH]; intros x; cbn [fold_left].
  - split; [now left|]. split; [lia|intros y []].
  - destruct (IH (Z.max x a)) as [H1 [H2 H3]]. split; [|split].
    + destruct H1 as [H1|H1]; [|now right; right].
      rewrite <- H1. destruct (Z.max_spec x a) as [[_ E]|[_ E]]; rewrite E;
        [now right; left|now left].
    + lia.
    + intros y [Hy|Hy]; [subst; lia|now apply H3].
Qed.

Lemma of_ratio_not_nan (n : Z) (d : positive) :
  0 <= n -> F64.is_nan (F64.of_ratio n d) = false.
Proof.
  intros H. unfold F64.of_ratio.
  destruct n as [|p|p]; try reflexivity; try lia.
  unfold F64.div, SFdiv.
  destruct (SFdiv_core_binary F64.prec F64.emax (Z.pos p) 0 (Z.pos d) 0) as [[mz ez] lz] eqn:E.
  apply binary_round_aux_sign.
  unfold SFdiv_core_binary in E.
  set (m' := match _ with Z.pos _ => _ | Z0 => _ | Z.neg _ => _ end) in E.
  assert (Hm : 0 <= m').
  { subst m'. destruct (_ - _ - _); try lia. apply Z.shiftl_nonneg. lia. }
  pose proof (Z_div_mod m' (Z.pos d) ltac:(lia)) as Hd.
  destruct (Z.div_eucl m' (Z.pos d)) as [q r]. inversion E; subst.
  destruct Hd as [Hq Hr]. nia.
Qed.

Lemma mul_finite_not_nan (x : F64.float) (m : positive) (e : Z) :
  F64.is_nan x = false -> F64.is_nan (F64.mul x (S754_finite false m e)) = false.
Proof.
  destruct x as [s|s| |s mx ex]; simpl; try discriminate; intros _; try reflexivity.
  apply (binary_round_aux_sign (xorb s false)). lia.
Qed.

(** A number divided by itself is one. *)
Lemma of_ratio_same (d : positive) : F64.of_ratio (Z.pos d) d = F64.of_Z 1.
Proof.
  unfold F64.of_ratio, F64.div, SFdiv, SFdiv_core_binary.
  replace (Z.min (fexp F64.prec F64.emax (Zdigits2 (Z.pos d) + 0 - (Zdigits2 (Z.pos d) + 0)))
                 (0 - 0)) with (-53)
    by (replace (Zdigits2 (Z.pos d) + 0 - (Zdigits2 (Z.pos d) + 0)) with 0 by lia;
        reflexivity).
  change (0 - 0 - -53) with 53. cbv iota.
  assert (E : Z.div_eucl (Z.shiftl (Z.pos d) 53) (Z.pos d) = (2 ^ 53, 0)).
  { rewrite Z.shiftl_mul_pow2 by lia.
    pose proof (Z_div_mod (Z.pos d * 2 ^ 53) (Z.pos d) ltac:(lia)) as H.
    destruct (Z.div_eucl (Z.pos d * 2 ^ 53) (Z.pos d)) as [q r].
    destruct H as [H1 H2].
    assert (r = 0).
    { assert (Hr : r = Z.pos d * (2 ^ 53 - q)) by lia.
      destruct (Z.eq_dec (2 ^ 53 - q) 0) as [Hz|Hz]; [rewrite Hz in Hr; lia|].
      exfalso. nia. }
    subst r. f_equal. nia. }
  rewrite E.
  replace (new_location (Z.pos d) 0) with loc_Exact
    by (unfold new_location, new_location_even, new_location_odd;
        destruct (Z.even (Z.pos d)); reflexivity).
  vm_compute. reflexivity.
Qed.

(** X9.  When the page is drawn, the table is the filtered data set and the
    count shown is its length, at most the length of the data set; the
    largest review count is "N/A" exactly when the table is empty, and
    otherwise it is the review count of a record of the table that no record
    of the table exceeds. *)
Theorem render_max_reviews (D tbl : list CleanedRecord) (r l : F64.float)
    (k : KPIs) :
  render D r l = Ok (Rendered k tbl) ->
  tbl = df_filtered D r l /\
  shown k = List.length tbl /\
  (shown k <= List.length D)%nat /\
  match max_reviews k with
  | None => tbl = []
  | Some m =>
      (exists x, In x tbl /\ review_count x = m) /\
      (forall x, In x tbl -> review_count x <= m)
  end.
Proof.
  destruct D as [|x D]; [discriminate|].
  destruct (render_nonempty x D r l) as [k' [Hk [H1 [_ H3]]]].
  assert (Hlen : (List.length (df_filtered (x :: D) r l) <= List.length (x :: D))%nat)
    by (unfold df_filtered; apply filter_length_le).
  remember (df_filtered (x :: D) r l) as f eqn:Ef.
  rewrite Hk. intros E.
  assert (Ek : k' = k) by congruence. assert (Et : f = tbl) by congruence.
  subst k' tbl. clear E.
  split; [reflexivity|]. split; [assumption|]. split; [now rewrite H1|].
  rewrite H3. destruct f as [|y f]; [reflexivity|].
  cbn [map max_int].
  destruct (fold_max_spec (map review_count f) (review_count y)) as [M1 [M2 M3]].
  split.
  - destruct M1 as [M1|M1].
    + exists y. split; [now left|assumption].
    + apply in_map_iff in M1 as [z [Ez Hz]]. exists z. split; [now right|assumption].
  - intros z [Hz|Hz]; [subst; assumption|].
    apply M3. now apply in_map.
Qed.

Lemma render_max_reviews_witness :
  exists k,
    render [clean_row floor_log10 py_float row_A 100;
            clean_row floor_log10 py_float row_C 2000]
           (decimal_to_float 40 (-1)) F64.zero
    = Ok (Rendered k [clean_row floor_log10 py_float row_A 100;
                      clean_row floor_log10 py_float row_C 2000]) /\
    shown k = 2%nat.
Proof.
  destruct (render_nonempty (clean_row floor_log10 py_float row_A 100)
              [clean_row floor_log10 py_float row_C 2000]
              (decimal_to_float 40 (-1)) F64.zero) as [k [Hk _]].
  change (df_filtered _ _ _)
    with [clean_row floor_log10 py_float row_A 100;
          clean_row floor_log10 py_float row_C 2000] in Hk.
  exists k. split; [exact Hk|].
  apply (render_max_reviews _ _ _ _ _ Hk).
Defined.

(** X10.  The share of the rows shown is a number that is not negative; it
    is 0 when the table is empty and exactly 100 when the table holds the
    whole data set. *)
Theorem render_coverage (D tbl : list CleanedRecord) (r l : F64.float)
    (k : KPIs) :
  render D r l = Ok (Rendered k tbl) ->
  F64.is_nan (coverage k) = false /\
  F64.sign_bit (coverage k) = false /\
  (tbl = [] -> coverage k = F64.zero) /\
  (List.length tbl = List.length D -> coverage k = F64.of_Z 100).
Proof.
  destruct D as [|x D]; [discriminate|].
  unfold render. set (f := df_filtered (x :: D) r l).
  cbn [List.length]. rewrite Nat2Z.inj_succ.
  destruct (Z.succ (Z.of_nat (List.length D))) as [|d|d] eqn:Ed; try lia.
  cbn [true_div bind]. intros E. inversion E; subst k tbl. clear E.
  cbn [coverage].
  change (F64.of_Z 100) with (S754_finite false 7036874417766400 (-46)).
  split; [|split; [|split]].
  - apply mul_finite_not_nan, of_ratio_not_nan. lia.
  - apply mul_sign; [|reflexivity]. apply of_ratio_sign. lia.
  - intros Hf. rewrite Hf. reflexivity.
  - intros Hlen. rewrite Hlen.
    replace (Z.of_nat (S (List.length D))) with (Z.pos d) by lia.
    rewrite of_ratio_same. vm_compute. reflexivity.
Qed.

Lemma render_coverage_witness :
  exists k,
    render [clean_row floor_log10 py_float row_A 100] F64.zero F64.zero
    = Ok (Rendered k [clean_row floor_log10 py_float row_A 100]) /\
    coverage k = F64.of_Z 100.
Proof.
  destruct (render_nonempty (clean_row floor_log10 py_float row_A 100) []
              F64.zero F64.zero) as [k [Hk _]].
  change (df_filtered _ _ _)
    with [clean_row floor_log10 py_float row_A 100] in Hk.
  exists k. split; [exact Hk|].
  apply (render_coverage _ _ _ _ _ Hk). reflexivity.
Defined.

(** ** More on loading *)

Lemma astype_int_column_Raises (col : list pyval) :
  astype_int_column col = Raises <-> exists v, In v col /\ astype_int v = Raises.
Proof.
  induction col as [|v col IH]; cbn [astype_int_column].
  - split; [discriminate|intros [v [[] _]]].
  - split.
    + intros H. destruct (astype_int v) as [n| |] eqn:Ev.
      * destruct (astype_int_column col) as [l'| |]; try discriminate.
        destruct (proj1 IH eq_refl) as [w [Hw Ew]]. exists w. split; [now right|assumption].
      * exists v. split; [now left|assumption].
      * destruct (astype_int_column col) as [l'| |]; try discriminate.
        destruct (proj1 IH eq_refl) as [w [Hw Ew]]. exists w. split; [now right|assumption].
    + intros [w [[Hw|Hw] Ew]].
      * subst. rewrite Ew. reflexivity.
      * assert (E : astype_int_column col = Raises) by (apply IH; eauto).
        rewrite E. destruct (astype_int v); reflexivity.
Qed.

(** What [clean_reviews] returns is a float, the integer 0 or a numpy
    scalar. *)
Lemma clean_reviews_cases (v : pyval) :
  (exists x, clean_reviews v = PyFloat x) \/ clean_reviews v = PyInt 0 \/
  (exists n, clean_reviews v = NpInt64 n) \/ (exists x, clean_reviews v = NpFloat64 x).
Proof.
  destruct v as [s|k|x|b| |k|x]; cbn [clean_reviews is_numeric_dtype]; eauto.
  destruct (_ || _).
  - destruct (py_float _); eauto.
  - destruct (str_in _ _); [eauto|]. destruct (py_float _); eauto.
Qed.

Lemma parse_review_count_Raises (v : pyval) :
  parse_review_count v = Raises <->
  exists x, (clean_reviews v = PyFloat x \/ clean_reviews v = NpFloat64 x) /\
            F64.is_finite x = false.
Proof.
  unfold parse_review_count. split.
  - destruct (clean_reviews_cases v) as [[x E]|[E|[[n E]|[x E]]]]; rewrite E;
      cbn [astype_int]; try discriminate.
    + unfold float_to_int64. destruct (F64.is_finite x) eqn:Ef.
      * destruct (in_int64 _); discriminate.
      * intros _. exists x. split; [now left|exact Ef].
    + unfold float_to_int64. destruct (F64.is_finite x) eqn:Ef.
      * destruct (in_int64 _); discriminate.
      * intros _. exists x. split; [now right|exact Ef].
  - intros [x [[E|E] Ef]]; rewrite E; cbn [astype_int]; unfold float_to_int64;
      now rewrite Ef.
Qed.

Section LoadingFacts.

Variable np_log10 : Z -> F64.float.
Variable to_double : str -> option F64.float.

Lemma dropna_rows (df : list ProductRecord) (counts : list Z) :
  Forall2 (fun v n => astype_int v = Ok n)
          (map (fun r => clean_reviews (review_count_raw r)) df) counts ->
  map source
      (dropna (map (fun rn => clean_row np_log10 to_double (fst rn) (snd rn))
                   (combine df counts)))
  = filter (fun row => negb (F64.is_nan (normalize_rating to_double (rating_raw row)))) df.
Proof.
  revert counts. induction df as [|r0 df IH]; intros counts H; cbn [map] in H.
  - inversion H; subst. reflexivity.
  - inversion H as [|v n0 col l Hv Hrest]; subst.
    cbn [combine map dropna filter fst snd rating clean_row].
    destruct (negb (F64.is_nan (normalize_rating to_double (rating_raw r0)))).
    + cbn [map source clean_row]. f_equal. apply (IH _ Hrest).
    + apply (IH _ Hrest).
Qed.

Lemma load_and_clean_data_sources (df : list ProductRecord)
    (D : list CleanedRecord) :
  load_and_clean_data np_log10 to_double (Some df) = Ok D ->
  map source D
  = filter (fun row => negb (F64.is_nan (normalize_rating to_double (rating_raw row)))) df.
Proof.
  unfold load_and_clean_data, bind.
  destruct (astype_int_column _) as [counts| |] eqn:E; try discriminate.
  intros H; inversion H; subst. apply dropna_rows.
  now apply astype_int_column_Ok.
Qed.

(** X6.  Cleaning keeps the rows whose rating is a number, all of them and
    in the order of the file, each once; a row is dropped for no other
    reason; and the review count of a record is the parse of the cell of its
    row. *)
Theorem load_and_clean_data_rows (df : list ProductRecord)
    (D : list CleanedRecord) :
  load_and_clean_data np_log10 to_double (Some df) = Ok D ->
  map source D
  = filter (fun row => negb (F64.is_nan (normalize_rating to_double (rating_raw row)))) df /\
  (List.length D <= List.length df)%nat /\
  (forall r, In r D ->
     parse_review_count (review_count_raw (source r)) = Ok (review_count r)).
Proof.
  intros H. pose proof (load_and_clean_data_sources df D H) as Hrows.
  split; [exact Hrows|]. split.
  - rewrite <- (length_map source D), Hrows. apply filter_length_le.
  - intros r Hr.
    destruct (load_and_clean_data_In np_log10 to_double df D r H Hr)
      as [row [n [_ [Hp [E _]]]]].
    subst r. exact Hp.
Qed.

(** X7.  One cell is enough to make the whole load fail: cleaning raises
    exactly when the review count of some row is read as an infinity or as a
    NaN (as the texts "inf" and "nan" are), and then the script raises,
    wherever the sliders are. *)
Theorem load_and_clean_data_raises (df : list ProductRecord) :
  (load_and_clean_data np_log10 to_double (Some df) = Raises <->
   exists row x,
     In row df /\
     (clean_reviews (review_count_raw row) = PyFloat x \/
      clean_reviews (review_count_raw row) = NpFloat64 x) /\
     F64.is_finite x = false) /\
  (load_and_clean_data np_log10 to_double (Some df) = Raises ->
   forall r l, dashboard np_log10 to_double (Some df) r l = Raises).
Proof.
  assert (Hiff : load_and_clean_data np_log10 to_double (Some df) = Raises <->
                 astype_int_column
                   (map (fun r => clean_reviews (review_count_raw r)) df) = Raises).
  { unfold load_and_clean_data, bind.
    destruct (astype_int_column _); split; congruence. }
  split.
  - rewrite Hiff, astype_int_column_Raises. split.
    + intros [v [Hv Ev]]. apply in_map_iff in Hv as [row [E Hrow]]. subst v.
      apply (proj1 (parse_review_count_Raises _)) in Ev as [x [Hx Hf]].
      exists row, x. auto.
    + intros [row [x [Hrow [Hx Hf]]]].
      exists (clean_reviews (review_count_raw row)). split.
      * apply in_map_iff. exists row. auto.
      * apply (proj2 (parse_review_count_Raises _)). exists x. auto.
  - intros H r l. unfold dashboard. now rewrite H.
Qed.

(** X8.  The script stops at line 76, before a slider is called or
    anything is drawn, when the file is missing, and, for a file that loads,
    exactly when no row of it has a rating that is a number.  Otherwise the
    two sliders are called: the script raises when the first raises, or when
    the second does after the first has returned; and when both return it
    goes on as [dashboard] does for the two values returned. *)
Theorem script_stops (st_slider : N -> slider -> outcome F64.float)
    (df : list ProductRecord) (D : list CleanedRecord) :
  load_and_clean_data np_log10 to_double (Some df) = Ok D ->
  script st_slider np_log10 to_double None = Ok Stopped /\
  (script st_slider np_log10 to_double (Some df) = Ok Stopped <->
   forall row, In row df ->
     F64.is_nan (normalize_rating to_double (rating_raw row)) = true) /\
  (D <> [] -> st_slider 1%N (rating_slider D) = Raises ->
   script st_slider np_log10 to_double (Some df) = Raises) /\
  (D <> [] -> forall r, st_slider 1%N (rating_slider D) = Ok r ->
   st_slider 2%N (reviews_slider D) = Raises ->
   script st_slider np_log10 to_double (Some df) = Raises) /\
  (forall r l, st_slider 1%N (rating_slider D) = Ok r ->
   st_slider 2%N (reviews_slider D) = Ok l ->
   script st_slider np_log10 to_double (Some df)
   = dashboard np_log10 to_double (Some df) r l).
Proof.
  intros H. split; [reflexivity|].
  pose proof (load_and_clean_data_sources df D H) as Hrows.
  unfold script, dashboard. rewrite H. cbn [bind].
  assert (Hnil : D = [] <->
                 forall row, In row df ->
                   F64.is_nan (normalize_rating to_double (rating_raw row)) = true).
  { split.
    - intros E row Hrow. subst D. cbn [map] in Hrows.
      destruct (F64.is_nan (normalize_rating to_double (rating_raw row))) eqn:En;
        [reflexivity|].
      assert (Hin : In row (filter (fun row => negb (F64.is_nan
                        (normalize_rating to_double (rating_raw row)))) df)).
      { apply filter_In. split; [assumption|]. now rewrite En. }
      rewrite <- Hrows in Hin. contradiction.
    - intros Hall. destruct D as [|x D]; [reflexivity|]. exfalso.
      assert (Hin : In (source x) (map source (x :: D))) by now left.
      rewrite Hrows in Hin. apply filter_In in Hin as [Hin Hn].
      rewrite (Hall _ Hin) in Hn. discriminate. }
  split; [|split; [|split]].
  - rewrite <- Hnil. destruct D as [|x D]; [split; reflexivity|].
    split; [|discriminate].
    destruct (st_slider 1%N (rating_slider (x :: D))) as [r| |]; cbn [bind];
      [|discriminate|discriminate].
    destruct (st_slider 2%N (reviews_slider (x :: D))) as [l| |]; cbn [bind];
      [|discriminate|discriminate].
    destruct (render_nonempty x D r l) as [k [Hk _]]. rewrite Hk. discriminate.
  - destruct D as [|x D]; [intros Hne; now exfalso; apply Hne|].
    intros _ E. rewrite E. reflexivity.
  - destruct D as [|x D]; [intros Hne; now exfalso; apply Hne|].
    intros _ r E1 E2. rewrite E1. cbn [bind]. rewrite E2. reflexivity.
  - intros r l E1 E2. destruct D as [|x D]; [reflexivity|].
    rewrite E1. cbn [bind]. rewrite E2. reflexivity.
Qed.

(** X17.  With both sliders at the low end of their range, the rating
    slider where it starts and the review slider at 0, every record of the
    data set is shown, provided no review count is negative or as large as
    the largest [int64] (where [review_count + 1] wraps around). *)
Theorem dashboard_shows_all (df : list ProductRecord) (D : list CleanedRecord) :
  log10_sign np_log10 ->
  load_and_clean_data np_log10 to_double (Some df) = Ok D ->
  (forall x, In x D -> 0 <= review_count x < int64_max) ->
  df_filtered D (value (rating_slider D)) (min_value (reviews_slider D)) = D.
Proof.
  intros Hlog H Hcount. unfold df_filtered.
  apply forallb_filter_id. apply forallb_forall. intros x Hx.
  destruct (load_and_clean_data_In np_log10 to_double df D x H Hx)
    as [row [n [_ [_ [E Hn]]]]].
  destruct (rating_extremes D x Hx Hn) as [H1 _].
  cbn [rating_slider reviews_slider value min_value]. rewrite H1. cbn [andb].
  specialize (Hcount x Hx). subst x.
  cbn [review_count_log10 review_count clean_row] in *.
  apply Hlog. unfold wrap64, int64_min, int64_max in *.
  rewrite Z.mod_small; lia.
Qed.

(** X18.  Every row of the table on the page comes from a row of the file
    whose rating is a number, carries the review count parsed from that row,
    and meets both thresholds. *)
Theorem dashboard_table (df : list ProductRecord) (r l : F64.float)
    (k : KPIs) (tbl : list CleanedRecord) (x : CleanedRecord) :
  dashboard np_log10 to_double (Some df) r l = Ok (Rendered k tbl) ->
  In x tbl ->
  In (source x) df /\
  F64.is_nan (normalize_rating to_double (rating_raw (source x))) = false /\
  rating x = normalize_rating to_double (rating_raw (source x)) /\
  parse_review_count (review_count_raw (source x)) = Ok (review_count x) /\
  F64.leb r (rating x) = true /\
  F64.leb l (review_count_log10 x) = true.
Proof.
  unfold dashboard, bind.
  destruct (load_and_clean_data np_log10 to_double (Some df)) as [D| |] eqn:HD;
    try discriminate.
  intros Hr Hx.
  assert (Ht : tbl = df_filtered D r l).
  { destruct D as [|y D]; [discriminate|].
    destruct (render_nonempty y D r l) as [k' [Hk _]]. congruence. }
  subst tbl. apply df_filtered_In in Hx as [Hx [H1 H2]].
  destruct (load_and_clean_data_In np_log10 to_double df D x HD Hx)
    as [row [n [Hrow [Hp [E Hn]]]]].
  subst x. cbn [source rating review_count clean_row] in *.
  repeat split; assumption.
Qed.

End LoadingFacts.

Lemma load_and_clean_data_rows_witness :
  map source [clean_row floor_log10 py_float row_A 100;
              clean_row floor_log10 py_float row_C 2000]
  = filter (fun row => negb (F64.is_nan (normalize_rating py_float (rating_raw row))))
      scenario.
Proof.
  apply (load_and_clean_data_rows floor_log10 py_float scenario).
  vm_compute; reflexivity.
Defined.

Lemma load_and_clean_data_raises_witness :
  load_and_clean_data floor_log10 py_float
    (Some [row_A;
           {| title := PyStr (lit "Y");
              rating_raw := PyFloat (decimal_to_float 45 (-1));
              review_count_raw := PyStr (lit "inf") |}]) = Raises.
Proof.
  apply (proj1 (load_and_clean_data_raises floor_log10 py_float _)).
  eexists. exists F64.pinf. split; [right; left; reflexivity|].
  split; [left; vm_compute; reflexivity|reflexivity].
Defined.

Lemma script_stops_witness :
  script (fun _ _ => Raises) floor_log10 py_float (Some [row_B]) = Ok Stopped.
Proof.
  apply (proj1 (proj2 (script_stops floor_log10 py_float (fun _ _ => Raises)
                         [row_B] [] ltac:(vm_compute; reflexivity)))).
  intros row [H|[]]; subst; reflexivity.
Defined.

Lemma dashboard_shows_all_witness :
  df_filtered [clean_row floor_log10 py_float row_A 100;
               clean_row floor_log10 py_float row_C 2000]
    (value (rating_slider [clean_row floor_log10 py_float row_A 100;
                           clean_row floor_log10 py_float row_C 2000]))
    (min_value (reviews_slider [clean_row floor_log10 py_float row_A 100;
                                clean_row floor_log10 py_float row_C 2000]))
  = [clean_row floor_log10 py_float row_A 100;
     clean_row floor_log10 py_float row_C 2000].
Proof.
  apply (dashboard_shows_all floor_log10 py_float scenario).
  - exact floor_log10_sign.
  - vm_compute; reflexivity.
  - intros x [H|[H|[]]]; subst; vm_compute; split; congruence.
Defined.

Lemma dashboard_table_witness :
  In (source (clean_row floor_log10 py_float row_A 100)) [row_A].
Proof.
  destruct (render_nonempty (clean_row floor_log10 py_float row_A 100) []
              F64.zero F64.zero) as [k [Hk _]].
  apply (dashboard_table floor_log10 py_float [row_A] F64.zero F64.zero k
           [clean_row floor_log10 py_float row_A 100]
           (clean_row floor_log10 py_float row_A 100)).
  - exact Hk.
  - left; reflexivity.
Defined.

(** ** More on the review-count parser *)

Lemma lstrip_all (sp : N -> bool) (s : str) :
  forallb sp s = true -> lstrip sp s = [].
Proof.
  induction s as [|c s IH]; cbn [forallb lstrip]; [reflexivity|].
  intros H. apply andb_true_iff in H as [H1 H2]. rewrite H1. auto.
Qed.

Lemma lstrip_app (sp : N -> bool) (s t : str) :
  lstrip sp (s ++ t) =
  match lstrip sp s with [] => lstrip sp t | _ :: _ => lstrip sp s ++ t end.
Proof.
  induction s as [|c s IH]; cbn [app lstrip].
  - destruct (lstrip sp t); reflexivity.
  - destruct (sp c); [exact IH|reflexivity].
Qed.

Lemma rstrip_app_space (sp : N -> bool) (s post : str) :
  forallb sp post = true -> rstrip sp (s ++ post) = rstrip sp s.
Proof.
  intros H. unfold rstrip. rewrite rev_app_distr, lstrip_app, lstrip_all;
    [reflexivity|].
  rewrite forallb_forall in *. intros x Hx. apply H. now apply in_rev.
Qed.

(** White space around a text does not change what [strip] leaves. *)
Lemma strip_padding (pre s post : str) :
  forallb isspace pre = true -> forallb isspace post = true ->
  strip (pre ++ s ++ post) = strip s.
Proof.
  intros Hpre Hpost. unfold strip.
  rewrite lstrip_app, (lstrip_all _ _ Hpre), lstrip_app.
  destruct (lstrip isspace s) as [|c u] eqn:E.
  - now rewrite (lstrip_all _ _ Hpost).
  - now apply rstrip_app_space.
Qed.

(** X11.  White space before and after the text of a cell does not change
    what the cell is parsed as. *)
Theorem clean_reviews_padding (pre s post : str) :
  forallb isspace pre = true -> forallb isspace post = true ->
  clean_reviews (PyStr (pre ++ s ++ post)) = clean_reviews (PyStr s) /\
  parse_review_count (PyStr (pre ++ s ++ post)) = parse_review_count (PyStr s).
Proof.
  intros Hpre Hpost.
  assert (E : clean_reviews (PyStr (pre ++ s ++ post)) = clean_reviews (PyStr s)).
  { cbn [clean_reviews]. now rewrite strip_padding. }
  split; [exact E|]. unfold parse_review_count. now rewrite E.
Qed.

Lemma clean_reviews_padding_witness :
  parse_review_count (PyStr (lit "  " ++ lit "3.4K" ++ [0x3000%N]))
  = parse_review_count (PyStr (lit "3.4K")).
Proof.
  apply clean_reviews_padding; vm_compute; reflexivity.
Defined.

Lemma isspace_range (c : N) : isspace c = true -> (c <= 32 \/ 133 <= c)%N.
Proof.
  unfold isspace. rewrite !orb_true_iff, !andb_true_iff, !N.leb_le, !N.eqb_eq.
  lia.
Qed.

Lemma isspace_upper_char (c : N) : isspace (upper_char c) = isspace c.
Proof.
  unfold upper_char.
  destruct ((97 <=? c)%N && (c <=? 122)%N) eqn:E; [|reflexivity].
  apply andb_true_iff in E as [H1 H2].
  apply N.leb_le in H1. apply N.leb_le in H2.
  destruct (isspace (c - 32)) eqn:E1; [apply isspace_range in E1; lia|].
  destruct (isspace c) eqn:E2; [apply isspace_range in E2; lia|reflexivity].
Qed.

Lemma isspace_lower_char (c : N) : isspace (lower_char c) = isspace c.
Proof.
  unfold lower_char.
  destruct ((65 <=? c)%N && (c <=? 90)%N) eqn:E; [|reflexivity].
  apply andb_true_iff in E as [H1 H2].
  apply N.leb_le in H1. apply N.leb_le in H2.
  destruct (isspace (c + 32)) eqn:E1; [apply isspace_range in E1; lia|].
  destruct (isspace c) eqn:E2; [apply isspace_range in E2; lia|reflexivity].
Qed.

Lemma lstrip_map (sp : N -> bool) (f : N -> N) (s : str) :
  (forall c, sp (f c) = sp c) -> lstrip sp (map f s) = map f (lstrip sp s).
Proof.
  intros H. induction s as [|c s IH]; cbn [map lstrip]; [reflexivity|].
  rewrite H. destruct (sp c); [exact IH|reflexivity].
Qed.

Lemma strip_map (f : N -> N) (s : str) :
  (forall c, isspace (f c) = isspace c) -> strip (map f s) = map f (strip s).
Proof.
  intros H. unfold strip, rstrip.
  rewrite (lstrip_map _ _ _ H), <- map_rev, (lstrip_map _ _ _ H), map_rev.
  reflexivity.
Qed.

Lemma upper_char_cases (c : N) :
  (upper_char c = c /\ ~ (97 <= c <= 122)%N) \/
  ((97 <= c <= 122)%N /\ upper_char c = (c - 32)%N).
Proof.
  unfold upper_char.
  destruct ((97 <=? c)%N && (c <=? 122)%N) eqn:E.
  - apply andb_true_iff in E as [H1 H2].
    apply N.leb_le in H1. apply N.leb_le in H2. right. split; [lia|reflexivity].
  - left. split; [reflexivity|].
    apply andb_false_iff in E as [E|E]; apply N.leb_gt in E; lia.
Qed.

Lemma lower_char_cases (c : N) :
  (lower_char c = c /\ ~ (65 <= c <= 90)%N) \/
  ((65 <= c <= 90)%N /\ lower_char c = (c + 32)%N).
Proof.
  unfold lower_char.
  destruct ((65 <=? c)%N && (c <=? 90)%N) eqn:E.
  - apply andb_true_iff in E as [H1 H2].
    apply N.leb_le in H1. apply N.leb_le in H2. right. split; [lia|reflexivity].
  - left. split; [reflexivity|].
    apply andb_false_iff in E as [E|E]; apply N.leb_gt in E; lia.
Qed.

Lemma lower_lower_char (c : N) : lower_char (lower_char c) = lower_char c.
Proof.
  destruct (lower_char_cases c) as [[E _]|[H E]]; rewrite E; [exact E|].
  destruct (lower_char_cases (c + 32)) as [[E' _]|[H' _]]; [exact E'|lia].
Qed.

Lemma upper_upper_char (c : N) : upper_char (upper_char c) = upper_char c.
Proof.
  destruct (upper_char_cases c) as [[E _]|[H E]]; rewrite E; [exact E|].
  destruct (upper_char_cases (c - 32)) as [[E' _]|[H' _]]; [exact E'|lia].
Qed.

Lemma upper_lower_char (c : N) : upper_char (lower_char c) = upper_char c.
Proof.
  destruct (lower_char_cases c) as [[E _]|[H E]]; rewrite E; [reflexivity|].
  destruct (upper_char_cases (c + 32)) as [[_ H']|[_ E']]; [lia|].
  destruct (upper_char_cases c) as [[E'' _]|[H'' _]]; [|lia].
  rewrite E', E''. lia.
Qed.

Lemma py_float_lower (s : str) : py_float (lower s) = py_float s.
Proof.
  unfold py_float, lower. rewrite map_map.
  now rewrite (map_ext _ _ lower_lower_char).
Qed.

(** Where a character sits in a text whose case was changed. *)
Lemma contains_map (f : N -> N) (a : N) (p : N -> bool) (s : str) :
  (forall c, N.eqb a (f c) = p c) -> contains a (map f s) = existsb p s.
Proof.
  intros H. unfold contains. induction s as [|c s IH]; cbn [map existsb];
    [reflexivity|]. now rewrite H, IH.
Qed.

Lemma existsb_orb {A : Type} (p q : A -> bool) (l : list A) :
  existsb (fun x => p x || q x) l = existsb p l || existsb q l.
Proof.
  induction l as [|x l IH]; cbn [existsb]; [reflexivity|].
  rewrite IH. destruct (p x), (q x), (existsb p l), (existsb q l); reflexivity.
Qed.

Ltac eqb_cases :=
  change (char "K") with 75%N; change (char "k") with 107%N;
  change (char ",") with 44%N;
  repeat match goal with
         | |- context [N.eqb ?a ?b] => destruct (N.eqb_spec a b)
         end;
  try reflexivity; try lia.

Lemma has_K_upper (t : str) :
  contains (char "K") (upper t) || contains (char "k") (upper t)
  = contains (char "K") t || contains (char "k") t.
Proof.
  unfold upper.
  rewrite (contains_map upper_char (char "K")
             (fun c => N.eqb (char "K") c || N.eqb (char "k") c)).
  - rewrite (contains_map upper_char (char "k") (fun _ => false)).
    + rewrite existsb_orb. unfold contains.
      replace (existsb (fun _ : N => false) t) with false
        by (induction t; cbn; auto).
      now rewrite orb_false_r.
    + intros c.
      destruct (upper_char_cases c) as [[E H]|[H E]]; rewrite E; eqb_cases.
  - intros c.
    destruct (upper_char_cases c) as [[E H]|[H E]]; rewrite E; eqb_cases.
Qed.

Lemma has_K_lower (t : str) :
  contains (char "K") (lower t) || contains (char "k") (lower t)
  = contains (char "K") t || contains (char "k") t.
Proof.
  unfold lower.
  rewrite (contains_map lower_char (char "k")
             (fun c => N.eqb (char "K") c || N.eqb (char "k") c)).
  - rewrite (contains_map lower_char (char "K") (fun _ => false)).
    + rewrite existsb_orb. unfold contains.
      replace (existsb (fun _ : N => false) t) with false
        by (induction t; cbn; auto).
      reflexivity.
    + intros c.
      destruct (lower_char_cases c) as [[E H]|[H E]]; rewrite E; eqb_cases.
  - intros c.
    destruct (lower_char_cases c) as [[E H]|[H E]]; rewrite E; eqb_cases.
Qed.

Lemma remove_comma_map (f : N -> N) (s : str) :
  (forall c, N.eqb (f c) (char ",") = N.eqb c (char ",")) ->
  remove_char (char ",") (map f s) = map f (remove_char (char ",") s).
Proof.
  intros H. unfold remove_char. induction s as [|c s IH]; cbn [map filter];
    [reflexivity|].
  rewrite H. destruct (negb (N.eqb c (char ","))); cbn [map]; now rewrite IH.
Qed.

Lemma upper_char_comma (c : N) :
  N.eqb (upper_char c) (char ",") = N.eqb c (char ",").
Proof.
  destruct (upper_char_cases c) as [[E H]|[H E]]; rewrite E; eqb_cases.
Qed.

Lemma lower_char_comma (c : N) :
  N.eqb (lower_char c) (char ",") = N.eqb c (char ",").
Proof.
  destruct (lower_char_cases c) as [[E H]|[H E]]; rewrite E; eqb_cases.
Qed.

Lemma strip_upper (s : str) : strip (upper s) = upper (strip s).
Proof. apply strip_map, isspace_upper_char. Qed.

Lemma strip_lower (s : str) : strip (lower s) = lower (strip s).
Proof. apply strip_map, isspace_lower_char. Qed.

Lemma upper_upper (s : str) : upper (upper s) = upper s.
Proof. unfold upper. rewrite map_map. apply map_ext, upper_upper_char. Qed.

Lemma upper_lower (s : str) : upper (lower s) = upper s.
Proof. unfold upper, lower. rewrite map_map. apply map_ext, upper_lower_char. Qed.

Lemma lower_lower (s : str) : lower (lower s) = lower s.
Proof. unfold lower. rewrite map_map. apply map_ext, lower_lower_char. Qed.

Lemma remove_comma_upper (s : str) :
  remove_char (char ",") (upper s) = upper (remove_char (char ",") s).
Proof. apply remove_comma_map, upper_char_comma. Qed.

Lemma remove_comma_lower (s : str) :
  remove_char (char ",") (lower s) = lower (remove_char (char ",") s).
Proof. apply remove_comma_map, lower_char_comma. Qed.

(** X12.  The parser makes no difference between upper and lower case: a
    text of ASCII, white-space and CJK characters, the same text in upper
    case and the same text in lower case are parsed alike. *)
Theorem clean_reviews_case (s : str) :
  forallb in_scope s = true ->
  clean_reviews (PyStr (upper s)) = clean_reviews (PyStr s) /\
  clean_reviews (PyStr (lower s)) = clean_reviews (PyStr s).
Proof.
  intros _. cbn [clean_reviews]. split.
  - rewrite strip_upper, has_K_upper, upper_upper, lower_upper,
      remove_comma_upper, py_float_upper. reflexivity.
  - rewrite strip_lower, has_K_lower, upper_lower, lower_lower,
      remove_comma_lower, py_float_lower. reflexivity.
Qed.

Lemma clean_reviews_case_witness :
  clean_reviews (PyStr (upper (lit "1.5e3k"))) = clean_reviews (PyStr (lit "1.5e3k")).
Proof.
  apply (clean_reviews_case (lit "1.5e3k")). vm_compute; reflexivity.
Defined.

(** *** The characters of a number *)

Lemma str_eqb_eq (a b : str) : str_eqb a b = true -> a = b.
Proof.
  revert b. induction a as [|x a IH]; intros [|y b]; cbn [str_eqb];
    try discriminate; [reflexivity|].
  intros H. apply andb_true_iff in H as [H1 H2].
  apply N.eqb_eq in H1. subst. f_equal. auto.
Qed.

Lemma is_digit_token_char (c : N) : is_digit c = true -> token_char c = true.
Proof. unfold token_char. intros H. now rewrite H. Qed.

Lemma span_digits_spec (s d r : str) :
  span_digits s = (d, r) -> s = d ++ r /\ forallb is_digit d = true.
Proof.
  revert d r. induction s as [|c s IH]; intros d r; cbn [span_digits].
  - intros E; inversion E; subst. split; reflexivity.
  - destruct (is_digit c) eqn:Ec.
    + destruct (span_digits s) as [d' r'] eqn:Es. intros E; inversion E; subst.
      destruct (IH _ _ eq_refl) as [H1 H2]. cbn [app forallb].
      rewrite Ec, H2. split; [now f_equal|reflexivity].
    + intros E; inversion E; subst. split; reflexivity.
Qed.

Lemma forallb_digits_token (d : str) :
  forallb is_digit d = true -> forallb token_char d = true.
Proof.
  rewrite !forallb_forall. intros H c Hc. apply is_digit_token_char. auto.
Qed.

Lemma read_sign_shape (s body : str) (neg : bool) :
  read_sign s = (neg, body) ->
  s = body \/ exists c, s = c :: body /\ token_char c = true.
Proof.
  unfold read_sign. destruct s as [|c s].
  - intros E; inversion E; now left.
  - destruct (N.eqb c (char "-")) eqn:E1.
    + intros E; inversion E; subst. right. exists c. split; [reflexivity|].
      apply N.eqb_eq in E1. subst. reflexivity.
    + destruct (N.eqb c (char "+")) eqn:E2.
      * intros E; inversion E; subst. right. exists c. split; [reflexivity|].
        apply N.eqb_eq in E2. subst. reflexivity.
      * intros E; inversion E; now left.
Qed.

Lemma read_exponent_chars (s : str) (e : Z) :
  read_exponent s = Some e -> forallb token_char s = true.
Proof.
  unfold read_exponent. destruct s as [|c s]; [reflexivity|].
  destruct (N.eqb c (char "e")) eqn:Ec; [|discriminate].
  apply N.eqb_eq in Ec. subst c.
  destruct (read_sign s) as [neg s''] eqn:Es.
  destruct (span_digits s'') as [d r] eqn:Ed.
  destruct d as [|c1 d]; [discriminate|]. destruct r; [|discriminate].
  intros _. apply span_digits_spec in Ed as [E1 E2].
  rewrite app_nil_r in E1. subst s''. apply forallb_digits_token in E2.
  cbn [forallb]. change (token_char (char "e")) with true. cbn [andb].
  destruct (read_sign_shape _ _ _ Es) as [E|[c [E Hc]]]; subst s.
  - exact E2.
  - change (token_char c && forallb token_char (c1 :: d) = true).
    now rewrite Hc, E2.
Qed.

Lemma read_decimal_chars (s : str) (me : Z * Z) :
  read_decimal s = Some me -> forallb token_char s = true.
Proof.
  unfold read_decimal.
  destruct (span_digits s) as [ip r] eqn:Eip.
  apply span_digits_spec in Eip as [Es Hip]. subst s.
  apply forallb_digits_token in Hip.
  destruct r as [|c r1].
  - intros _. now rewrite app_nil_r.
  - destruct (N.eqb c (char ".")) eqn:Ec.
    + apply N.eqb_eq in Ec. subst c.
      destruct (span_digits r1) as [fp r'] eqn:Efp.
      apply span_digits_spec in Efp as [Er Hfp]. subst r1.
      apply forallb_digits_token in Hfp.
      destruct (ip ++ fp); [discriminate|].
      destruct (read_exponent r') as [e|] eqn:Ee; [|discriminate].
      intros _. apply read_exponent_chars in Ee.
      rewrite forallb_app. cbn [forallb]. rewrite forallb_app.
      now rewrite Hip, Hfp, Ee.
    + rewrite app_nil_r. destruct ip; [discriminate|].
      destruct (read_exponent (c :: r1)) as [e|] eqn:Ee; [|discriminate].
      intros _. apply read_exponent_chars in Ee.
      rewrite forallb_app. now rewrite Hip, Ee.
Qed.

Lemma float_of_token_chars (t : str) (x : F64.float) :
  float_of_token t = Some x -> forallb token_char t = true.
Proof.
  unfold float_of_token.
  destruct (read_sign t) as [neg body] eqn:Es.
  assert (Hbody : forallb token_char body = true -> forallb token_char t = true).
  { destruct (read_sign_shape _ _ _ Es) as [E|[c [E Hc]]]; subst t; [auto|].
    cbn [forallb]. now rewrite Hc. }
  destruct (str_eqb body (lit "inf") || str_eqb body (lit "infinity")) eqn:E1.
  - intros _. apply Hbody. apply orb_true_iff in E1 as [E1|E1];
      apply str_eqb_eq in E1; subst body; reflexivity.
  - destruct (str_eqb body (lit "nan")) eqn:E2.
    + intros _. apply Hbody. apply str_eqb_eq in E2. subst body. reflexivity.
    + destruct (read_decimal body) as [me|] eqn:Ed; [|discriminate].
      intros _. apply Hbody. eapply read_decimal_chars; eassumption.
Qed.

Lemma lstrip_keeps (sp : N -> bool) (c : N) (s : str) :
  In c s -> sp c = false -> In c (lstrip sp s).
Proof.
  intros Hin Hc. induction s as [|x s IH]; [contradiction|]. cbn [lstrip].
  destruct (sp x) eqn:Ex; [|assumption].
  destruct Hin as [E|Hin]; [subst; congruence|auto].
Qed.

Lemma rstrip_keeps (sp : N -> bool) (c : N) (s : str) :
  In c s -> sp c = false -> In c (rstrip sp s).
Proof.
  intros Hin Hc. unfold rstrip. rewrite <- in_rev.
  apply lstrip_keeps; [now rewrite <- in_rev|assumption].
Qed.

Lemma drop_underscores_keeps (c : N) (s t : str) (prev : N) :
  drop_underscores prev s = Some t -> In c s -> c <> char "_" -> In c t.
Proof.
  revert prev t. induction s as [|x s IH]; intros prev t; cbn [drop_underscores].
  - intros _ [].
  - destruct (N.eqb x (char "_")) eqn:Ex.
    + destruct (is_digit prev); [|discriminate]. intros E [H|H] Hc.
      * apply N.eqb_eq in Ex. congruence.
      * eauto.
    + destruct (N.eqb prev (char "_") && negb (is_digit x)); [discriminate|].
      destruct (drop_underscores x s) as [t'|] eqn:E'; [|discriminate].
      cbn [option_map]. intros E; inversion E; subst. intros [H|H] Hc.
      * now left.
      * right. eauto.
Qed.

Lemma float_space_range (c : N) : float_space c = true -> (c <= 32 \/ 133 <= c)%N.
Proof.
  unfold float_space. rewrite !orb_true_iff, !andb_true_iff, !N.leb_le, N.eqb_eq.
  intros [[H|H]|[_ H]]; [lia|lia|]. now apply isspace_range.
Qed.

Lemma float_space_lower_char (c : N) : float_space (lower_char c) = float_space c.
Proof.
  destruct (lower_char_cases c) as [[E _]|[H E]]; rewrite E; [reflexivity|].
  destruct (float_space (c + 32)) eqn:E1; [apply float_space_range in E1; lia|].
  destruct (float_space c) eqn:E2; [apply float_space_range in E2; lia|reflexivity].
Qed.

(** [float] reads a text only if every character of it can occur in a
    number. *)
Lemma py_float_chars (u : str) (x : F64.float) (c : N) :
  py_float u = Some x -> In c u -> float_char c = true.
Proof.
  unfold py_float.
  destruct (drop_underscores 0%N _) as [t|] eqn:Et; [|discriminate].
  intros Hx Hc. apply float_of_token_chars in Hx.
  unfold float_char.
  destruct (float_space c) eqn:Es; [reflexivity|].
  destruct (N.eqb c (char "_")) eqn:Eu; [reflexivity|]. cbn [orb].
  rewrite forallb_forall in Hx. apply Hx.
  apply (drop_underscores_keeps _ _ _ _ Et).
  - apply rstrip_keeps;
      [apply lstrip_keeps; [unfold lower; now apply in_map|]|];
      rewrite float_space_lower_char; assumption.
  - apply N.eqb_neq in Eu. change (char "_") with 95%N in *.
    destruct (lower_char_cases c) as [[E _]|[H E]]; rewrite E; lia.
Qed.

Lemma float_char_upper_char (c : N) : float_char (upper_char c) = float_char c.
Proof.
  unfold float_char. rewrite lower_upper_char.
  destruct (upper_char_cases c) as [[E _]|[H E]]; rewrite E; [reflexivity|].
  replace (float_space (c - 32)) with false
    by (symmetry; destruct (float_space (c - 32)) eqn:E1;
        [apply float_space_range in E1; lia|reflexivity]).
  replace (float_space c) with false
    by (symmetry; destruct (float_space c) eqn:E1;
        [apply float_space_range in E1; lia|reflexivity]).
  change (char "_") with 95%N.
  destruct (N.eqb_spec (c - 32) 95), (N.eqb_spec c 95); try reflexivity; lia.
Qed.

(** X13.  A text that holds a character which cannot occur in a number, and
    which is not 'K', 'k' or a comma, is parsed as 0: nothing is raised.
    (The character is an ASCII, white-space or CJK character: digits of
    other scripts, which [float] reads as well, are not modelled.) *)
Theorem clean_reviews_not_a_number (s : str) (c : N) :
  in_scope c = true ->
  In c (strip s) -> float_char c = false ->
  c <> char "K" -> c <> char "k" -> c <> char "," ->
  clean_reviews (PyStr s) = PyInt 0 /\ parse_review_count (PyStr s) = Ok 0.
Proof.
  intros _ Hin Hc HK Hk Hcomma.
  assert (E : clean_reviews (PyStr s) = PyInt 0).
  { cbn [clean_reviews].
    destruct (contains (char "K") (strip s) || contains (char "k") (strip s)).
    - destruct (py_float _) as [x|] eqn:Ex; [|reflexivity]. exfalso.
      assert (Hu : In (upper_char c) (remove_char (char "K") (upper (strip s)))).
      { unfold remove_char. apply filter_In. split.
        - unfold upper. now apply in_map.
        - apply negb_true_iff, N.eqb_neq. intros E.
          destruct (upper_char_K c E); contradiction. }
      pose proof (py_float_chars _ _ _ Ex Hu) as Hf.
      rewrite float_char_upper_char in Hf. congruence.
    - destruct (str_in _ _); [reflexivity|].
      destruct (py_float _) as [x|] eqn:Ex; [|reflexivity]. exfalso.
      assert (Hu : In c (remove_char (char ",") (strip s))).
      { unfold remove_char. apply filter_In. split; [assumption|].
        now apply negb_true_iff, N.eqb_neq. }
      pose proof (py_float_chars _ _ _ Ex Hu) as Hf. congruence. }
  split; [exact E|]. unfold parse_review_count. now rewrite E.
Qed.

Lemma clean_reviews_not_a_number_witness :
  parse_review_count (PyStr (lit "12 reviews")) = Ok 0.
Proof.
  apply (clean_reviews_not_a_number (lit "12 reviews") (char "r"));
    vm_compute; try discriminate; auto 10.
Defined.

(** X14.  The commas are taken out only on the branch without 'K': a text
    with a 'K' or a 'k' and a comma, such as "1,2K", is parsed as 0. *)
Theorem clean_reviews_comma_K (s : str) :
  contains (char "K") (strip s) || contains (char "k") (strip s) = true ->
  In (char ",") (strip s) ->
  clean_reviews (PyStr s) = PyInt 0 /\ parse_review_count (PyStr s) = Ok 0.
Proof.
  intros HK Hin.
  assert (E : clean_reviews (PyStr s) = PyInt 0).
  { cbn [clean_reviews]. rewrite HK.
    destruct (py_float _) as [x|] eqn:Ex; [|reflexivity]. exfalso.
    assert (Hu : In (char ",") (remove_char (char "K") (upper (strip s)))).
    { unfold remove_char. apply filter_In. split; [|reflexivity].
      change (char ",") with (upper_char (char ",")).
      unfold upper. now apply in_map. }
    pose proof (py_float_chars _ _ _ Ex Hu) as Hf. discriminate. }
  split; [exact E|]. unfold parse_review_count. now rewrite E.
Qed.

Lemma clean_reviews_comma_K_witness :
  parse_review_count (PyStr (lit "1,2K")) = Ok 0.
Proof.
  apply (clean_reviews_comma_K (lit "1,2K")).
  - vm_compute; reflexivity.
  - vm_compute; auto.
Defined.

(** ** Integers that binary64 holds exactly *)

Lemma shr_1_even (m : Z) :
  0 <= m -> shr_1 (Build_shr_record (2 * m) false false) = Build_shr_record m false false.
Proof.
  intros H. destruct m as [|p|p]; try lia; reflexivity.
Qed.

Lemma pow2_xO (k : positive) : 2 ^ Z.pos k~0 = 2 ^ Z.pos k * 2 ^ Z.pos k.
Proof. rewrite <- Z.pow_add_r by lia. f_equal. lia. Qed.

Lemma pow2_xI (k : positive) : 2 ^ Z.pos k~1 = 2 * (2 ^ Z.pos k * 2 ^ Z.pos k).
Proof.
  rewrite <- Z.pow_add_r, <- Z.pow_succ_r by lia. f_equal. lia.
Qed.

(** Shifting out zeros leaves nothing to round. *)
Lemma iter_shr_1_exact (k : positive) (m : Z) :
  0 <= m ->
  iter_pos shr_1 k (Build_shr_record (m * 2 ^ Z.pos k) false false)
  = Build_shr_record m false false.
Proof.
  revert m. induction k as [k IH|k IH|]; intros m Hm; cbn [iter_pos].
  - replace (m * 2 ^ Z.pos k~1) with (2 * ((m * 2 ^ Z.pos k) * 2 ^ Z.pos k)).
    + rewrite shr_1_even by (apply Z.mul_nonneg_nonneg; [|lia];
                             apply Z.mul_nonneg_nonneg; lia).
      rewrite IH by (apply Z.mul_nonneg_nonneg; lia). now apply IH.
    + rewrite pow2_xI. ring.
  - replace (m * 2 ^ Z.pos k~0) with ((m * 2 ^ Z.pos k) * 2 ^ Z.pos k).
    + rewrite IH by (apply Z.mul_nonneg_nonneg; lia). now apply IH.
    + rewrite pow2_xO. ring.
  - change (2 ^ 1) with 2. rewrite Z.mul_comm. now apply shr_1_even.
Qed.

Lemma iter_xO_pow2 (p q : positive) :
  Z.pos (Pos.iter xO p q) = Z.pos p * 2 ^ Z.pos q.
Proof.
  induction q as [|q IH] using Pos.peano_ind.
  - cbn [Pos.iter]. lia.
  - rewrite Pos.iter_succ, Pos2Z.inj_xO, IH, Pos2Z.inj_succ, Z.pow_succ_r by lia.
    ring.
Qed.

Lemma Zdigits2_mul_pow2 (M : positive) (k : Z) :
  0 <= k -> Zdigits2 (Z.pos M * 2 ^ k) = Z.pos (digits2_pos M) + k.
Proof.
  intros Hk.
  assert (Hp : 0 < Z.pos M * 2 ^ k) by (apply Z.mul_pos_pos; [lia|apply Z.pow_pos_nonneg; lia]).
  rewrite Zdigits2_log2 by assumption.
  rewrite digits2_pos_log2, Z.log2_mul_pow2 by lia. lia.
Qed.

(** A mantissa of 53 digits followed by [k] zeros is rounded to itself. *)
Lemma binary_round_aux_exact (M : positive) (k e : Z) :
  Z.pos (digits2_pos M) = 53 -> 0 <= k ->
  emin F64.prec F64.emax <= e + k <= F64.emax - F64.prec ->
  binary_round_aux F64.prec F64.emax false (Z.pos M * 2 ^ k) e loc_Exact
  = S754_finite false M (e + k).
Proof.
  intros Hd Hk He. unfold binary_round_aux.
  assert (E1 : shr_fexp F64.prec F64.emax (Z.pos M * 2 ^ k) e loc_Exact
               = (Build_shr_record (Z.pos M) false false, e + k)).
  { unfold shr_fexp. rewrite Zdigits2_mul_pow2 by assumption.
    replace (fexp F64.prec F64.emax (Z.pos (digits2_pos M) + k + e) - e) with k
      by (unfold fexp, F64.prec in *; lia).
    cbn [shr_record_of_loc]. unfold shr.
    destruct k as [|q|q]; try lia.
    - rewrite Z.mul_1_r, Z.add_0_r. reflexivity.
    - rewrite iter_shr_1_exact by lia. reflexivity. }
  rewrite E1. cbn [shr_m loc_of_shr_record round_nearest_even].
  assert (E2 : shr_fexp F64.prec F64.emax (Z.pos M) (e + k) loc_Exact
               = (Build_shr_record (Z.pos M) false false, e + k)).
  { unfold shr_fexp. cbn [Zdigits2].
    replace (fexp F64.prec F64.emax (Z.pos (digits2_pos M) + (e + k)) - (e + k)) with 0
      by (unfold fexp, F64.prec in *; lia).
    reflexivity. }
  rewrite E2. cbn [shr_m].
  replace (e + k <=? F64.emax - F64.prec) with true
    by (symmetry; apply Z.leb_le; lia).
  reflexivity.
Qed.

(** The float of a positive integer below 2^53: its mantissa is the integer
    shifted to 53 digits. *)
Lemma of_Z_canonical (p : positive) :
  Z.pos p < 2 ^ 53 ->
  exists M : positive,
    Z.pos M = Z.pos p * 2 ^ (53 - Z.pos (digits2_pos p)) /\
    Z.pos (digits2_pos M) = 53 /\
    F64.of_Z (Z.pos p) = S754_finite false M (Z.pos (digits2_pos p) - 53).
Proof.
  intros Hp. set (d := Z.pos (digits2_pos p)).
  assert (Hd : 1 <= d <= 53).
  { subst d. rewrite digits2_pos_log2.
    pose proof (Z.log2_nonneg (Z.pos p)).
    assert (Z.log2 (Z.pos p) < 53) by (apply Z.log2_lt_pow2; lia). lia. }
  unfold F64.of_Z, binary_normalize, binary_round.
  pose proof (shl_align_digits p 0 (fexp F64.prec F64.emax (Z.pos (digits2_pos p) + 0))) as D.
  assert (Ee : snd (shl_align p 0 (fexp F64.prec F64.emax (Z.pos (digits2_pos p) + 0))) = d - 53).
  { unfold shl_align, fexp, F64.prec, emin, F64.emax. fold d.
    destruct (Z.max (d + 0 - 53) (3 - 1024 - 53) - 0) eqn:E; cbn [snd]; lia. }
  assert (Em : Z.pos (fst (shl_align p 0 (fexp F64.prec F64.emax (Z.pos (digits2_pos p) + 0))))
               = Z.pos p * 2 ^ (53 - d)).
  { unfold shl_align, fexp, F64.prec, emin, F64.emax. fold d.
    destruct (Z.max (d + 0 - 53) (3 - 1024 - 53) - 0) as [|q|q] eqn:E; cbn [fst].
    - replace (53 - d) with 0 by lia. lia.
    - lia.
    - rewrite iter_xO_pow2. f_equal. f_equal. lia. }
  rewrite Ee in D.
  destruct (shl_align p 0 (fexp F64.prec F64.emax (Z.pos (digits2_pos p) + 0)))
    as [mz ez] eqn:Esh.
  cbn [fst snd] in *. subst ez.
  exists mz. split; [exact Em|]. fold d in D. split; [lia|].
  pose proof (binary_round_aux_exact mz 0 (d - 53) ltac:(lia) ltac:(lia)) as R.
  rewrite Z.mul_1_r, Z.add_0_r in R. apply R.
  unfold emin, F64.emax, F64.prec. lia.
Qed.

Lemma div_eucl_1 (m : Z) : Z.div_eucl m 1 = (m, 0).
Proof.
  pose proof (Z_div_mod m 1 ltac:(lia)) as H.
  destruct (Z.div_eucl m 1) as [q r]. destruct H as [H1 H2].
  f_equal; lia.
Qed.

(** An integer below 2^53 over one is that integer. *)
Lemma of_ratio_1 (p : positive) :
  Z.pos p < 2 ^ 53 -> F64.of_ratio (Z.pos p) 1 = F64.of_Z (Z.pos p).
Proof.
  intros Hp. destruct (of_Z_canonical p Hp) as [M [HM [HdM EM]]]. rewrite EM.
  set (d := Z.pos (digits2_pos p)) in *.
  assert (Hd : 1 <= d <= 53).
  { subst d. rewrite digits2_pos_log2.
    pose proof (Z.log2_nonneg (Z.pos p)).
    assert (Z.log2 (Z.pos p) < 53) by (apply Z.log2_lt_pow2; lia). lia. }
  unfold F64.of_ratio, F64.div, SFdiv, SFdiv_core_binary.
  change (Zdigits2 (Z.pos p)) with d. change (Zdigits2 1) with 1.
  replace (Z.min (fexp F64.prec F64.emax (d + 0 - (1 + 0))) (0 - 0)) with (d - 54)
    by (unfold fexp, emin, F64.prec, F64.emax; lia).
  replace (0 - 0 - (d - 54)) with (54 - d) by lia.
  destruct (54 - d) as [|q|q] eqn:Es; try lia.
  rewrite div_eucl_1.
  replace (new_location 1 0) with loc_Exact by reflexivity.
  cbn [xorb].
  replace (Z.shiftl (Z.pos p) (Z.pos q)) with (Z.pos M * 2 ^ 1).
  - replace (d - 53) with (d - 54 + 1) by lia.
    apply binary_round_aux_exact; [assumption|lia|].
    unfold emin, F64.emax, F64.prec. lia.
  - rewrite Z.shiftl_mul_pow2 by lia. rewrite HM, <- Es.
    rewrite <- Z.mul_assoc, <- Z.pow_add_r by lia. f_equal. f_equal. lia.
Qed.

(** The product of two integers is exact when it is below 2^53. *)
Lemma mul_of_Z (a b : positive) :
  Z.pos a * Z.pos b < 2 ^ 53 ->
  F64.mul (F64.of_Z (Z.pos a)) (F64.of_Z (Z.pos b)) = F64.of_Z (Z.pos (a * b)).
Proof.
  intros H.
  assert (Ha : Z.pos a < 2 ^ 53) by nia.
  assert (Hb : Z.pos b < 2 ^ 53) by nia.
  destruct (of_Z_canonical a Ha) as [Ma [HMa [Hda Ea]]].
  destruct (of_Z_canonical b Hb) as [Mb [HMb [Hdb Eb]]].
  destruct (of_Z_canonical (a * b) ltac:(lia)) as [Mab [HMab [Hdab Eab]]].
  rewrite Ea, Eb, Eab. unfold F64.mul, SFmul. cbn [xorb].
  set (da := Z.pos (digits2_pos a)) in *.
  set (db := Z.pos (digits2_pos b)) in *.
  set (dab := Z.pos (digits2_pos (a * b))) in *.
  assert (Hlog : da + db - 1 <= dab).
  { subst da db dab. rewrite !digits2_pos_log2, Pos2Z.inj_mul.
    pose proof (Z.log2_mul_below (Z.pos a) (Z.pos b) ltac:(lia) ltac:(lia)). lia. }
  assert (Hdab' : dab <= 53).
  { subst dab. rewrite digits2_pos_log2.
    assert (Z.log2 (Z.pos (a * b)) < 53) by (apply Z.log2_lt_pow2; lia). lia. }
  assert (Hda' : 1 <= da) by (subst da; lia).
  assert (Hdb' : 1 <= db) by (subst db; lia).
  replace (Z.pos (Ma * Mb)) with (Z.pos Mab * 2 ^ (53 - da - db + dab)).
  - replace (dab - 53) with (da - 53 + (db - 53) + (53 - da - db + dab)) by lia.
    apply binary_round_aux_exact; [assumption|lia|].
    unfold emin, F64.emax, F64.prec. lia.
  - rewrite Pos2Z.inj_mul, HMa, HMb, HMab, Pos2Z.inj_mul.
    replace (53 - da - db + dab) with ((53 - da) + (53 - db) - (53 - dab)) by lia.
    assert (Hpow : 2 ^ (53 - dab) * 2 ^ (53 - da + (53 - db) - (53 - dab))
                   = 2 ^ (53 - da) * 2 ^ (53 - db)).
    { rewrite <- !Z.pow_add_r by lia. f_equal. lia. }
    rewrite <- Z.mul_assoc, Hpow. ring.
Qed.

(** Truncation gives the integer back. *)
Lemma trunc_of_Z (n : Z) : 0 <= n < 2 ^ 53 -> F64.trunc (F64.of_Z n) = n.
Proof.
  intros [H0 H53]. destruct n as [|p|p]; [reflexivity| |lia].
  destruct (of_Z_canonical p H53) as [M [HM [HdM EM]]]. rewrite EM.
  cbn [F64.trunc cond_Zopp].
  assert (Hd : 1 <= Z.pos (digits2_pos p) <= 53).
  { rewrite digits2_pos_log2.
    pose proof (Z.log2_nonneg (Z.pos p)).
    assert (Z.log2 (Z.pos p) < 53) by (apply Z.log2_lt_pow2; lia). lia. }
  rewrite Z.shiftl_div_pow2 by lia.
  replace (- (Z.pos (digits2_pos p) - 53)) with (53 - Z.pos (digits2_pos p)) by lia.
  rewrite HM. apply Z.div_mul. apply Z.pow_nonzero; lia.
Qed.

Lemma float_to_int64_of_Z (n : Z) :
  0 <= n < 2 ^ 53 -> float_to_int64 (F64.of_Z n) = Ok n.
Proof.
  intros H. unfold float_to_int64.
  assert (Hf : F64.is_finite (F64.of_Z n) = true).
  { destruct n as [|p|p]; [reflexivity| |lia].
    destruct (of_Z_canonical p ltac:(lia)) as [M [_ [_ EM]]]. now rewrite EM. }
  rewrite Hf, trunc_of_Z by assumption.
  replace (in_int64 n) with true; [reflexivity|].
  symmetry. unfold in_int64, int64_min, int64_max.
  apply andb_true_iff. split; apply Z.leb_le; lia.
Qed.

(** ** Counts written as whole numbers *)

Lemma is_digit_range (c : N) : is_digit c = true -> (48 <= c <= 57)%N.
Proof.
  unfold is_digit. rewrite andb_true_iff, !N.leb_le. lia.
Qed.

Lemma lower_digits (ds : str) : forallb is_digit ds = true -> lower ds = ds.
Proof.
  intros H. unfold lower. rewrite <- (map_id ds) at 2. apply map_ext_in.
  intros c Hc. rewrite forallb_forall in H. apply H, is_digit_range in Hc.
  destruct (lower_char_cases c) as [[E _]|[Hr _]]; [exact E|lia].
Qed.

Lemma upper_digits (ds : str) : forallb is_digit ds = true -> upper ds = ds.
Proof.
  intros H. unfold upper. rewrite <- (map_id ds) at 2. apply map_ext_in.
  intros c Hc. rewrite forallb_forall in H. apply H, is_digit_range in Hc.
  destruct (upper_char_cases c) as [[E _]|[Hr _]]; [exact E|lia].
Qed.

Lemma lstrip_id (sp : N -> bool) (s : str) :
  match s with c :: _ => sp c = false | [] => True end -> lstrip sp s = s.
Proof.
  destruct s as [|c s]; [reflexivity|]. cbn [lstrip]. intros H. now rewrite H.
Qed.

Lemma strip_id (sp : N -> bool) (s : str) :
  forallb (fun c => negb (sp c)) s = true ->
  rstrip sp (lstrip sp s) = s.
Proof.
  intros H. rewrite forallb_forall in H.
  assert (Hs : forall c, In c s -> sp c = false)
    by (intros c Hc; now apply negb_true_iff, H).
  rewrite lstrip_id.
  - unfold rstrip. rewrite lstrip_id; [apply rev_involutive|].
    destruct (rev s) as [|c r] eqn:E; [exact I|].
    apply Hs. apply in_rev. rewrite E. now left.
  - destruct s as [|c s]; [exact I|]. apply Hs. now left.
Qed.

Lemma drop_underscores_digits (prev : N) (ds : str) :
  prev <> char "_" -> forallb is_digit ds = true ->
  drop_underscores prev ds = Some ds.
Proof.
  revert prev. induction ds as [|c ds IH]; intros prev Hp; cbn [drop_underscores forallb].
  - intros _. apply N.eqb_neq in Hp. now rewrite Hp.
  - intros H. apply andb_true_iff in H as [Hc Hds].
    pose proof (is_digit_range c Hc) as Hr.
    assert (Hne : c <> char "_") by (change (char "_") with 95%N; lia).
    rewrite (proj2 (N.eqb_neq c _) Hne), (proj2 (N.eqb_neq prev _) Hp).
    cbn [andb]. now rewrite (IH c Hne Hds).
Qed.

Lemma span_digits_all (ds : str) :
  forallb is_digit ds = true -> span_digits ds = (ds, []).
Proof.
  induction ds as [|c ds IH]; cbn [span_digits forallb]; [reflexivity|].
  intros H. apply andb_true_iff in H as [Hc Hds]. now rewrite Hc, (IH Hds).
Qed.

Lemma float_of_token_digits (c : N) (ds : str) :
  forallb is_digit (c :: ds) = true ->
  float_of_token (c :: ds)
  = Some (F64.of_ratio (digits_value (c :: ds)) 1).
Proof.
  intros H. pose proof H as H'. cbn [forallb] in H'.
  apply andb_true_iff in H' as [Hc _]. apply is_digit_range in Hc.
  unfold float_of_token.
  assert (Es : read_sign (c :: ds) = (false, c :: ds)).
  { unfold read_sign.
    replace (N.eqb c (char "-")) with false
      by (symmetry; apply N.eqb_neq; change (char "-") with 45%N; lia).
    replace (N.eqb c (char "+")) with false
      by (symmetry; apply N.eqb_neq; change (char "+") with 43%N; lia).
    reflexivity. }
  rewrite Es.
  assert (Ne : forall a l, (a <? 48)%N = false -> (57 <? a)%N = true ->
                           str_eqb (c :: ds) (a :: l) = false).
  { intros a l _ Ha. cbn [str_eqb]. apply N.ltb_lt in Ha.
    replace (N.eqb c a) with false by (symmetry; apply N.eqb_neq; lia).
    reflexivity. }
  change (lit "inf") with (105%N :: lit "nf").
  change (lit "infinity") with (105%N :: lit "nfinity").
  change (lit "nan") with (110%N :: lit "an").
  rewrite !Ne by reflexivity. cbn [orb].
  unfold read_decimal. rewrite (span_digits_all _ H). rewrite app_nil_r.
  cbn [read_exponent option_map fst snd List.length Z.of_nat].
  unfold decimal_to_float. cbn [Z.sub Z.opp Z.add].
  now rewrite Z.pow_0_r, Z.mul_1_r.
Qed.

(** [float] reads a string of digits as the number it writes. *)
Lemma py_float_digits (ds : str) :
  ds <> [] -> forallb is_digit ds = true -> digits_value ds < 2 ^ 53 ->
  py_float ds = Some (F64.of_Z (digits_value ds)).
Proof.
  intros Hne Hd Hv. unfold py_float. rewrite (lower_digits _ Hd).
  rewrite strip_id.
  - rewrite drop_underscores_digits; [|discriminate|assumption].
    destruct ds as [|c ds]; [congruence|].
    rewrite (float_of_token_digits _ _ Hd). f_equal.
    pose proof (digits_value_nonneg (c :: ds)) as H0.
    destruct (digits_value (c :: ds)) as [|p|p] eqn:E; [reflexivity| |lia].
    now apply of_ratio_1.
  - rewrite forallb_forall in *. intros c Hc. apply negb_true_iff.
    apply Hd, is_digit_range in Hc.
    destruct (float_space c) eqn:E; [apply float_space_range in E; lia|reflexivity].
Qed.

Lemma digits_no_char (ds : str) (a : N) :
  forallb is_digit ds = true -> is_digit a = false -> contains a ds = false.
Proof.
  intros H Ha. apply contains_false. intros Hin.
  rewrite forallb_forall in H. rewrite (H _ Hin) in Ha. discriminate.
Qed.

Lemma lower_char_fixed (c a : N) :
  lower_char c = a -> ~ (97 <= a <= 122)%N -> c = a.
Proof.
  intros E Ha. destruct (lower_char_cases c) as [[E' _]|[Hr E']]; [congruence|].
  rewrite E' in E. lia.
Qed.

(** X15.  A cell that holds a whole number, with or without commas and
    white space around it, is parsed as that number, as long as the number is
    below 2^53: commas are dropped wherever they stand. *)
Theorem parse_review_count_integer (s : str) :
  remove_char (char ",") (strip s) <> [] ->
  forallb is_digit (remove_char (char ",") (strip s)) = true ->
  digits_value (remove_char (char ",") (strip s)) < 2 ^ 53 ->
  parse_review_count (PyStr s)
  = Ok (digits_value (remove_char (char ",") (strip s))).
Proof.
  set (t := strip s). set (ds := remove_char (char ",") t).
  intros Hne Hd Hv.
  assert (Hin : forall c, In c t -> c = char "," \/ is_digit c = true).
  { intros c Hc. destruct (N.eqb_spec c (char ",")) as [E|E]; [now left|right].
    rewrite forallb_forall in Hd. apply Hd. unfold ds, remove_char.
    apply filter_In. split; [assumption|]. now apply negb_true_iff, N.eqb_neq. }
  assert (HnoK : forall a, a <> char "," -> is_digit a = false -> contains a t = false).
  { intros a Ha1 Ha2. apply contains_false. intros Hc.
    destruct (Hin a Hc); congruence. }
  unfold parse_review_count. cbn [clean_reviews]. fold t.
  rewrite (HnoK (char "K")), (HnoK (char "k")) by (try discriminate; reflexivity).
  cbn [orb]. fold ds.
  destruct (str_in (lower t) no_reviews) eqn:Es.
  - cbn [astype_int]. change (in_int64 0) with true. cbn iota. f_equal.
    unfold str_in, no_reviews in Es. cbn [existsb] in Es.
    rewrite !orb_true_iff in Es.
    assert (Hwu : ~ In wu (lower t)).
    { unfold lower. intros Hw. apply in_map_iff in Hw as [c [E Hc]].
      apply lower_char_fixed in E; [|unfold wu; lia]. subst c.
      destruct (Hin _ Hc) as [H|H]; discriminate. }
    destruct Es as [E|[E|[E|[E|E]]]]; try discriminate;
      apply str_eqb_eq in E.
    + destruct t as [|c [|c' t']]; try discriminate.
      cbn in E. inversion E as [E']. apply lower_char_fixed in E'; [|lia].
      subst c. reflexivity.
    + exfalso. apply Hwu. rewrite E. now left.
    + exfalso. apply Hwu. rewrite E. now left.
    + destruct t; [|discriminate]. exfalso. now apply Hne.
  - rewrite (py_float_digits ds Hne Hd Hv). cbn [astype_int].
    apply float_to_int64_of_Z. split; [apply digits_value_nonneg|assumption].
Qed.

Lemma parse_review_count_integer_witness :
  parse_review_count (PyStr (lit " 12,345,678 ")) = Ok 12345678.
Proof.
  apply (parse_review_count_integer (lit " 12,345,678 "));
    vm_compute; try discriminate; reflexivity.
Defined.

(** X16.  A whole number followed by 'K' or 'k' is parsed as a thousand
    times the number, as long as the result is below 2^53. *)
Theorem parse_review_count_thousands (s ds : str) (c : N) :
  strip s = ds ++ [c] -> c = char "K" \/ c = char "k" ->
  ds <> [] -> forallb is_digit ds = true ->
  1000 * digits_value ds < 2 ^ 53 ->
  parse_review_count (PyStr s) = Ok (1000 * digits_value ds).
Proof.
  intros Et Hc Hne Hd Hv.
  pose proof (digits_value_nonneg ds) as H0.
  unfold parse_review_count. cbn [clean_reviews]. rewrite Et.
  assert (HK : contains (char "K") (ds ++ [c]) || contains (char "k") (ds ++ [c]) = true).
  { rewrite !contains_app. unfold contains at 2 4. cbn [existsb].
    destruct Hc; subst c; cbn; now rewrite ?orb_true_r. }
  rewrite HK.
  assert (Hup : remove_char (char "K") (upper (ds ++ [c])) = ds).
  { unfold upper. rewrite map_app. fold (upper ds). rewrite (upper_digits _ Hd).
    cbn [map]. replace (upper_char c) with (char "K")
      by (destruct Hc; subst c; reflexivity).
    unfold remove_char. rewrite filter_app. cbn [filter].
    rewrite N.eqb_refl. cbn [negb]. rewrite app_nil_r.
    apply remove_char_absent, digits_no_char; [assumption|reflexivity]. }
  rewrite Hup, (py_float_digits ds Hne Hd ltac:(lia)). cbn [astype_int].
  replace (F64.mul (F64.of_Z (digits_value ds)) (F64.of_Z 1000))
    with (F64.of_Z (1000 * digits_value ds)).
  - apply float_to_int64_of_Z. lia.
  - destruct (digits_value ds) as [|p|p] eqn:E; [reflexivity| |lia].
    change 1000 with (Z.pos 1000) at 2.
    rewrite mul_of_Z by lia. f_equal. lia.
Qed.

Lemma parse_review_count_thousands_witness :
  parse_review_count (PyStr (lit " 25k")) = Ok 25000.
Proof.
  apply (parse_review_count_thousands (lit " 25k") (lit "25") (char "k"));
    vm_compute; try discriminate; auto.
Defined.
